(** * Incubator simulator: the simulation step, its alarms and its history log

    A shallow embedding of [incubator_simulation.py].  Python floats are
    IEEE binary64 values, modelled by Rocq's primitive [float]; Python
    integers are [Z].  The only function left abstract is the C library's
    [sin], a variable of the section that defines the simulation step. *)

From Stdlib Require Import ZArith List String Ascii Bool Lia Floats DecimalString.
Import ListNotations.

Set Warnings "-inexact-float".

(** ** Python's numbers *)

Module PyNum.

(** Exceptions the script can raise. *)
Inductive exn : Type :=
| ValueError
| OverflowError.

Inductive result (A : Type) : Type :=
| Ok (a : A)
| Raise (e : exn).
Arguments Ok {A} a.
Arguments Raise {A} e.

(** Comparison of two floats, as [float_richcompare] does: with a NaN on
    either side every ordering test is false. *)
Definition float_lt (x y : float) : bool := PrimFloat.ltb x y.
Definition float_gt (x y : float) : bool := PrimFloat.ltb y x.
Definition float_le (x y : float) : bool := PrimFloat.leb x y.
Definition float_ge (x y : float) : bool := PrimFloat.leb y x.
Definition float_eq (x y : float) : bool := PrimFloat.eqb x y.

(** The exact value of the finite float [m * 2^e], as a fraction. *)
Definition sf_num (m : positive) (e : Z) : Z :=
  if (0 <=? e)%Z then (Zpos m * 2 ^ e)%Z else Zpos m.
Definition sf_den (e : Z) : Z :=
  if (0 <=? e)%Z then 1%Z else (2 ^ (- e))%Z.

(** Comparison of an integer with a float: Python compares the exact
    values, whatever the size of the integer. *)
Definition int_compare_float (z : Z) (x : float) : option comparison :=
  match Prim2SF x with
  | S754_nan => None
  | S754_infinity s => Some (if s then Gt else Lt)
  | S754_zero _ => Some (z ?= 0)%Z
  | S754_finite s m e => Some (z * sf_den e ?= cond_Zopp s (sf_num m e))%Z
  end.
Definition int_lt_float (z : Z) (x : float) : bool :=
  match int_compare_float z x with Some Lt => true | _ => false end.
Definition int_gt_float (z : Z) (x : float) : bool :=
  match int_compare_float z x with Some Gt => true | _ => false end.
Definition int_eq_float (z : Z) (x : float) : bool :=
  match int_compare_float z x with Some Eq => true | _ => false end.

(** The integer nearest to [p / q] for [0 <= p] and [0 < q], a tie going to
    the even neighbour. *)
Definition round_half_even (p q : Z) : Z :=
  let (d, r) := Z.div_eucl p q in
  match (2 * r ?= q)%Z with
  | Lt => d
  | Gt => (d + 1)%Z
  | Eq => if Z.even d then d else (d + 1)%Z
  end.

(** The double nearest to [p / q] (for [0 < p], [0 < q]), with sign [s]:
    what [strtod] returns on a decimal string. *)
Definition nearest_double (s : bool) (p q : Z) : spec_float :=
  let '(mz, ez, lz) := SFdiv_core_binary prec emax p 0 q 0 in
  binary_round_aux prec emax s mz ez lz.

(** [round(x, ndigits)] on a float, for [ndigits >= 0] (the script passes 1,
    2 and 3): the exact value of [x] is rounded to [ndigits] decimals, ties to
    even, and the decimal read back as a double.  NaN, infinities and zeros
    round to themselves, and so does every [x] once [ndigits] exceeds 323. *)
Definition round_ndigits (x : float) (ndigits : N) : float :=
  if (323 <? ndigits)%N then x
  else
    match Prim2SF x with
    | S754_finite s m e =>
        let scale := (10 ^ Z.of_N ndigits)%Z in
        let n := round_half_even (sf_num m e * scale) (sf_den e) in
        if (n =? 0)%Z then SF2Prim (S754_zero s)
        else SF2Prim (nearest_double s n scale)
    | _ => x
    end.

(** [round(x)] with one argument: the nearest integer, ties to even; a NaN
    raises [ValueError] and an infinity [OverflowError]. *)
Definition round_int (x : float) : result Z :=
  match Prim2SF x with
  | S754_nan => Raise ValueError
  | S754_infinity _ => Raise OverflowError
  | S754_zero _ => Ok 0%Z
  | S754_finite s m e => Ok (cond_Zopp s (round_half_even (sf_num m e) (sf_den e)))
  end.

(** [float(n)] for an integer within the range of doubles. *)
Definition float_of_int (n : Z) : float :=
  SF2Prim (binary_normalize prec emax n 0 false).

(** [str(n)] for an integer. *)
Definition int_str (n : Z) : string := NilZero.string_of_int (Z.to_int n).

(** *** [str] of a float

    [str(x)] is the shortest decimal string that reads back as [x]; among
    the strings of that length, the one nearest to [x]. *)

(** The value [n * 10^ex] as a fraction. *)
Definition dec_num (n ex : Z) : Z := if (0 <=? ex)%Z then (n * 10 ^ ex)%Z else n.
Definition dec_den (ex : Z) : Z := if (0 <=? ex)%Z then 1%Z else (10 ^ (- ex))%Z.

(** [10^ex <= p / q]. *)
Definition pow10_le (ex p q : Z) : bool :=
  (dec_num 1 ex * q <=? p * dec_den ex)%Z.

(** The decimal exponent of [p / q]: the [ex] with
    [10^ex <= p / q < 10^(ex + 1)], found next to an estimate taken from
    the binary logarithms. *)
Definition decimal_exponent (p q : Z) : Z :=
  let e0 := ((Z.log2 p - Z.log2 q) * 30103 / 100000)%Z in
  let fits ex := pow10_le ex p q && negb (pow10_le (ex + 1) p q) in
  match find fits [(e0 - 2)%Z; (e0 - 1)%Z; e0; (e0 + 1)%Z; (e0 + 2)%Z] with
  | Some ex => ex
  | None => e0
  end.

(** Does the decimal [n * 10^ex] read back as the finite float [x]? *)
Definition reads_back (x : spec_float) (s : bool) (n ex : Z) : bool :=
  match SFcompare (nearest_double s (dec_num n ex) (dec_den ex)) x with
  | Some Eq => true
  | _ => false
  end.

(** The decimal with [k] significant digits for the float of sign [s] and
    magnitude [p / q], when one of the two neighbours with [k] digits reads
    back as that float: the nearer of those that do. *)
Definition digits_at (x : spec_float) (s : bool) (p q : Z) (k : Z) : option (Z * Z) :=
  let ex := (decimal_exponent p q - k + 1)%Z in
  let num := (p * dec_den ex)%Z in
  let den := (q * dec_num 1 ex)%Z in
  let (lo, r) := Z.div_eucl num den in
  let hi := (lo + 1)%Z in
  if (r =? 0)%Z then (if reads_back x s lo ex then Some (lo, ex) else None)
  else
    match reads_back x s lo ex, reads_back x s hi ex with
    | true, true =>
        match (2 * r ?= den)%Z with
        | Lt => Some (lo, ex)
        | Gt => Some (hi, ex)
        | Eq => Some (if Z.even lo then lo else hi, ex)
        end
    | true, false => Some (lo, ex)
    | false, true => Some (hi, ex)
    | false, false => None
    end.

Fixpoint shortest_digits (x : spec_float) (s : bool) (p q : Z) (k : Z) (fuel : nat)
  : Z * Z :=
  match fuel with
  | O => (p, 0%Z)
  | S fuel' =>
      match digits_at x s p q k with
      | Some d => d
      | None => shortest_digits x s p q (k + 1)%Z fuel'
      end
  end.

Fixpoint strip_zeros (fuel : nat) (n ex : Z) : Z * Z :=
  match fuel with
  | O => (n, ex)
  | S fuel' =>
      if (n mod 10 =? 0)%Z then strip_zeros fuel' (n / 10)%Z (ex + 1)%Z else (n, ex)
  end.

Definition uint_str (n : Z) : string := NilZero.string_of_uint (N.to_uint (Z.to_N n)).

Fixpoint zeros (n : nat) : string :=
  match n with
  | O => EmptyString
  | S n' => String "0" (zeros n')
  end.

(** The exponent suffix: a sign and at least two digits. *)
Definition exponent_str (ex : Z) : string :=
  let a := uint_str (Z.abs ex) in
  ((if (ex <? 0)%Z then "e-" else "e+")
     ++ (if (String.length a <? 2)%nat then "0" else "") ++ a)%string.

(** The layout used by [repr]: scientific notation when the decimal point
    would fall before the fourth leading zero or after the sixteenth digit. *)
Definition layout (digits : string) (decpt : Z) : string :=
  let nd := Z.of_nat (String.length digits) in
  if ((decpt <=? -4) || (16 <? decpt))%Z then
    (substring 0 1 digits
       ++ (if (1 <? nd)%Z then "." ++ substring 1 (String.length digits - 1) digits else "")
       ++ exponent_str (decpt - 1))%string
  else if (decpt <=? 0)%Z then
    ("0." ++ zeros (Z.to_nat (- decpt)) ++ digits)%string
  else if (nd <=? decpt)%Z then
    (digits ++ zeros (Z.to_nat (decpt - nd)) ++ ".0")%string
  else
    (substring 0 (Z.to_nat decpt) digits ++ "."
       ++ substring (Z.to_nat decpt) (Z.to_nat (nd - decpt)) digits)%string.

Definition float_str (x : float) : string :=
  match Prim2SF x with
  | S754_nan => "nan"
  | S754_infinity s => if s then "-inf" else "inf"
  | S754_zero s => if s then "-0.0" else "0.0"
  | S754_finite s m e =>
      let '(n, ex) := shortest_digits (S754_finite s m e) s (sf_num m e) (sf_den e) 1 17 in
      let '(n', ex') := strip_zeros 17 n ex in
      let digits := uint_str n' in
      ((if s then "-" else "") ++ layout digits (ex' + Z.of_nat (String.length digits)))%string
  end.

End PyNum.

(** ** [collections.deque] with a maximal length *)

Module Deque.

Record deque : Type := { items : list float; maxlen : nat }.

(** [deque.append]: the item goes to the right end, and when the length
    then exceeds [maxlen] the leftmost item is dropped. *)
Definition append (d : deque) (x : float) : deque :=
  let l := items d ++ [x] in
  {| items := if (maxlen d <? List.length l)%nat then tl l else l; maxlen := maxlen d |}.

(** [deque(iterable, maxlen=n)]: an empty deque extended item by item. *)
Definition make (l : list float) (n : nat) : deque :=
  fold_left append l {| items := []; maxlen := n |}.

End Deque.

(** ** The session state and the readings *)

Import PyNum.

Inductive channel : Type := ChTemp | ChHumid | ChO2 | ChCO2 | ChFan.

Definition channels : list channel := [ChTemp; ChHumid; ChO2; ChCO2; ChFan].

(** The dictionary [st.session_state.thresholds]: its ten keys are written
    from the sidebar before every use, each with a float. *)
Record thresholds_t : Type := {
  TEMP_min : float; TEMP_max : float;
  HUMID_min : float; HUMID_max : float;
  O2_min : float; O2_max : float;
  CO2_min : float; CO2_max : float;
  FAN_min : float; FAN_max : float
}.

(** The script's table of defaults; its integers are written here as the
    floats the sidebar's [float(...)] turns them into. *)
Definition default_thresholds : thresholds_t :=
  {| TEMP_min := 36.0; TEMP_max := 38.0;
     HUMID_min := 50; HUMID_max := 70;
     O2_min := 19; O2_max := 25;
     CO2_min := 0.03; CO2_max := 0.06;
     FAN_min := 0; FAN_max := 100 |}.

(** The dictionary [rec] that [simulate_step] returns. *)
Record reading : Type := {
  timestamp : string;
  TEMP : float;
  HUMID : float;
  O2 : float;
  CO2 : float;
  FAN : Z;
  alarm : string
}.

(** A cell of a row of [log_rows]. *)
Inductive cell : Type :=
| CellStr (s : string)
| CellFloat (x : float)
| CellInt (n : Z).

Definition row : Type := list cell.

Record session_state : Type := {
  running : bool;
  alarm_paused : bool;
  log_rows : list row;
  sim_t : float;
  temp_buffer : Deque.deque;
  humid_buffer : Deque.deque;
  o2_buffer : Deque.deque;
  co2_buffer : Deque.deque;
  thresholds : thresholds_t
}.

(** The session state a new session starts with. *)
Definition init_state : session_state :=
  {| running := false;
     alarm_paused := false;
     log_rows := [];
     sim_t := 0.0;
     temp_buffer := Deque.make (repeat 37.0%float 300) 300;
     humid_buffer := Deque.make (repeat 60.0%float 300) 300;
     o2_buffer := Deque.make (repeat 21.0%float 300) 300;
     co2_buffer := Deque.make (repeat 0.04%float 300) 300;
     thresholds := default_thresholds |}.

Definition set_running (b : bool) (s : session_state) : session_state :=
  {| running := b; alarm_paused := alarm_paused s; log_rows := log_rows s;
     sim_t := sim_t s; temp_buffer := temp_buffer s; humid_buffer := humid_buffer s;
     o2_buffer := o2_buffer s; co2_buffer := co2_buffer s; thresholds := thresholds s |}.

Definition set_alarm_paused (b : bool) (s : session_state) : session_state :=
  {| running := running s; alarm_paused := b; log_rows := log_rows s;
     sim_t := sim_t s; temp_buffer := temp_buffer s; humid_buffer := humid_buffer s;
     o2_buffer := o2_buffer s; co2_buffer := co2_buffer s; thresholds := thresholds s |}.

Definition set_log_rows (l : list row) (s : session_state) : session_state :=
  {| running := running s; alarm_paused := alarm_paused s; log_rows := l;
     sim_t := sim_t s; temp_buffer := temp_buffer s; humid_buffer := humid_buffer s;
     o2_buffer := o2_buffer s; co2_buffer := co2_buffer s; thresholds := thresholds s |}.

Definition set_sim_t (t : float) (s : session_state) : session_state :=
  {| running := running s; alarm_paused := alarm_paused s; log_rows := log_rows s;
     sim_t := t; temp_buffer := temp_buffer s; humid_buffer := humid_buffer s;
     o2_buffer := o2_buffer s; co2_buffer := co2_buffer s; thresholds := thresholds s |}.

Definition set_thresholds (th : thresholds_t) (s : session_state) : session_state :=
  {| running := running s; alarm_paused := alarm_paused s; log_rows := log_rows s;
     sim_t := sim_t s; temp_buffer := temp_buffer s; humid_buffer := humid_buffer s;
     o2_buffer := o2_buffer s; co2_buffer := co2_buffer s; thresholds := th |}.

(** The four appends of [simulate_step], in the order of the script. *)
Definition push_buffers (temp humid o2 co2 : float) (s : session_state) : session_state :=
  {| running := running s; alarm_paused := alarm_paused s; log_rows := log_rows s;
     sim_t := sim_t s;
     temp_buffer := Deque.append (temp_buffer s) temp;
     humid_buffer := Deque.append (humid_buffer s) humid;
     o2_buffer := Deque.append (o2_buffer s) o2;
     co2_buffer := Deque.append (co2_buffer s) co2;
     thresholds := thresholds s |}.

(** What a tick reads besides the session state: the sidebar's options, the
    clock, and the numbers [random.random()] hands out when asked. *)
Record tick_env : Type := {
  simulate_noise : bool;
  manual_temp : float;
  manual_humid : float;
  now_isoformat : string;
  rand_temp : float;
  rand_humid : float;
  rand_o2 : float;
  rand_co2 : float;
  rand_fan : float
}.

(** ** State and exceptions *)

Definition M (A : Type) : Type := session_state -> result A * session_state.

Definition ret {A} (a : A) : M A := fun s => (Ok a, s).

Definition bind {A B} (c : M A) (k : A -> M B) : M B :=
  fun s =>
    match c s with
    | (Ok a, s') => k a s'
    | (Raise e, s') => (Raise e, s')
    end.

Definition lift {A} (r : result A) : M A := fun s => (r, s).
Definition gets {A} (f : session_state -> A) : M A := fun s => (Ok (f s), s).
Definition modify (f : session_state -> session_state) : M unit := fun s => (Ok tt, f s).

Declare Scope step_scope.
Delimit Scope step_scope with step.
Notation "x <- c ;; k" := (bind c (fun x => k))
  (at level 61, c at next level, right associativity) : step_scope.
Notation "c ;;; k" := (bind c (fun _ => k))
  (at level 61, right associativity) : step_scope.

(** ** The alarm evaluation *)

(** [random.uniform(a, b)], from the number [u] that [random.random()]
    returns. *)
Definition uniform (a b u : float) : float := (a + (b - a) * u)%float.

(** The tests and appends of [simulate_step] on the rounded values, in the
    order of the script. *)
Definition evaluate_alarms (vT vH vO vC : float) (vF : Z) (th : thresholds_t)
  : list string :=
  let alarms := [] in
  let alarms :=
    if float_lt vT (TEMP_min th) || float_gt vT (TEMP_max th)
    then alarms ++ [("TEMP " ++ float_str vT)%string] else alarms in
  let alarms :=
    if float_lt vH (HUMID_min th) || float_gt vH (HUMID_max th)
    then alarms ++ [("HUMID " ++ float_str vH)%string] else alarms in
  let alarms :=
    if float_lt vO (O2_min th) || float_gt vO (O2_max th)
    then alarms ++ [("O2 " ++ float_str vO)%string] else alarms in
  let alarms :=
    if float_lt vC (CO2_min th) || float_gt vC (CO2_max th)
    then alarms ++ [("CO2 " ++ float_str vC)%string] else alarms in
  let alarms :=
    if int_lt_float vF (FAN_min th) || int_gt_float vF (FAN_max th)
    then alarms ++ [("FAN " ++ int_str vF)%string] else alarms in
  alarms.

(** ["; ".join(alarms) if alarms else ""]. *)
Definition alarm_text (alarms : list string) : string :=
  match alarms with
  | [] => ""%string
  | _ => String.concat "; " alarms
  end.

Definition row_of (r : reading) : row :=
  [CellStr (timestamp r); CellFloat (TEMP r); CellFloat (HUMID r); CellFloat (O2 r);
   CellFloat (CO2 r); CellInt (FAN r); CellStr (alarm r)].

(** ** The simulation step *)

Section Simulation.

(** The C library's sine. *)
Variable sin : float -> float.

(** [math.sin]: a NaN result on a number, or an infinite result on a finite
    number, raises [ValueError]. *)
Definition math_sin (x : float) : result float :=
  let r := sin x in
  if is_nan r && negb (is_nan x) then Raise ValueError
  else if is_infinity r && is_finite x then Raise ValueError
  else Ok r.

Local Open Scope step_scope.

Definition simulate_step (dt : float) (w : tick_env) : M reading :=
  modify (fun s => set_sim_t (sim_t s + dt)%float s) ;;;
  t <- gets sim_t ;;
  s1 <- lift (math_sin (0.05 * t)%float) ;;
  let temp := (37.0 + 0.3 * s1
               + (if simulate_noise w then uniform (-0.2) 0.2 (rand_temp w) else 0))%float in
  s2 <- lift (math_sin (0.03 * t)%float) ;;
  let humid := (60 + 5 * s2
                + (if simulate_noise w then uniform (-2) 2 (rand_humid w) else 0))%float in
  s3 <- lift (math_sin (0.02 * t)%float) ;;
  let o2 := (21 + 0.5 * s3
             + (if simulate_noise w then uniform (-0.3) 0.3 (rand_o2 w) else 0))%float in
  s4 <- lift (math_sin (0.01 * t)%float) ;;
  let co2 := (0.04 + 0.01 * s4
              + (if simulate_noise w then uniform (-0.005) 0.005 (rand_co2 w) else 0))%float in
  s5 <- lift (math_sin (0.02 * t)%float) ;;
  let fan := (50 + 10 * s5
              + (if simulate_noise w then uniform (-5) 5 (rand_fan w) else 0))%float in
  let temp := if float_ge (manual_temp w) 0 then manual_temp w else temp in
  let humid := if float_ge (manual_humid w) 0 then manual_humid w else humid in
  modify (push_buffers temp humid o2 co2) ;;;
  fan_int <- lift (round_int fan) ;;
  let vT := round_ndigits temp 2 in
  let vH := round_ndigits humid 1 in
  let vO := round_ndigits o2 2 in
  let vC := round_ndigits co2 3 in
  th <- gets thresholds ;;
  let alarms := evaluate_alarms vT vH vO vC fan_int th in
  let rec :=
    {| timestamp := now_isoformat w; TEMP := vT; HUMID := vH; O2 := vO; CO2 := vC;
       FAN := fan_int; alarm := alarm_text alarms |} in
  modify (fun s => set_log_rows (log_rows s ++ [row_of rec]) s) ;;;
  ret rec.

End Simulation.

(** ** The page: what a run of the script shows and writes

    The vitals panel ([show_metric]) is left out: it reads [rec] and the
    thresholds, draws, and changes nothing. *)

Inductive ui_event : Type :=
| UiMetric (label value : string)
| UiWrite (text : string)
| UiSuccess (text : string)
| UiInfo (text : string)
| UiWarning (text : string)
| UiError (text : string)
| UiPlot (subheader : string) (data : list float)
| UiToCsv (filename : string) (columns : list string) (rows : list row)
| UiException (e : exn).

Definition csv_columns : list string :=
  ["timestamp"; "TEMP"; "HUMID"; "O2"; "CO2"; "FAN"; "alarm"]%string.

(** The "Save Log CSV" handler; [stamp] is the clock read through
    [strftime('%Y%m%d_%H%M%S')]. *)
Definition save_log (stamp : string) (s : session_state) : list ui_event * session_state :=
  match log_rows s with
  | [] => ([UiInfo "No data to save yet."], s)
  | _ :: _ =>
      let filename := ("incubator_log_" ++ stamp ++ ".csv")%string in
      ([UiToCsv filename csv_columns (log_rows s);
        UiSuccess ("Saved log to " ++ filename)], s)
  end.

(** The "Clear Log" handler. *)
Definition clear_log (s : session_state) : list ui_event * session_state :=
  ([UiSuccess "Log cleared"], set_log_rows [] s).

(** The "Alarm status" block. *)
Definition alarm_status (rec : reading) (paused : bool) : ui_event :=
  match alarm rec, paused with
  | String _ _, false => UiError (alarm rec)
  | String _ _, true => UiWarning ("Alarm paused: " ++ alarm rec)
  | EmptyString, _ => UiSuccess "All parameters normal"
  end.

(** The title block, shown before the buttons are handled. *)
Definition show_status (s : session_state) : list ui_event :=
  [UiMetric "Status" (if running s then "Running" else "Stopped");
   UiWrite ("**Last update:** "
            ++ match last (log_rows s) [] with
               | CellStr ts :: _ => ts
               | _ => "no data"
               end);
   UiWrite "Alarm: ";
   if alarm_paused s then UiSuccess "Paused" else UiWrite "Active"]%string.

Definition plot_trends (s : session_state) : list ui_event :=
  [UiPlot "Temperature (°C)" (Deque.items (temp_buffer s));
   UiPlot "Humidity (%)" (Deque.items (humid_buffer s));
   UiPlot "O₂ (%)" (Deque.items (o2_buffer s));
   UiPlot "CO₂ (%)" (Deque.items (co2_buffer s))]%string.

(** What the user and the world hand to one run of the script. *)
Record ui_inputs : Type := {
  start_btn : bool;
  stop_btn : bool;
  pause_alarm_btn : bool;
  save_log_btn : bool;
  clear_log_btn : bool;
  thr_inputs : thresholds_t;
  sim_speed : Z;
  now_strftime : string;
  env : tick_env
}.

Section Script.

Variable sin : float -> float.

(** The block under [if st.session_state.running]. *)
Definition main_loop (u : ui_inputs) (s : session_state) : list ui_event * session_state :=
  match simulate_step sin (float_of_int (sim_speed u) / 1000.0)%float (env u) s with
  | (Raise e, s1) => ([UiException e], s1)
  | (Ok rec, s1) =>
      let shown :=
        plot_trends s1
          ++ [alarm_status rec (alarm_paused s1);
              UiWrite ("Total log rows: " ++ int_str (Z.of_nat (List.length (log_rows s1))))] in
      if clear_log_btn u
      then let '(ev, s2) := clear_log s1 in (shown ++ ev, s2)
      else (shown, s1)
  end.

(** One run of the script, top to bottom. *)
Definition script_run (u : ui_inputs) (s : session_state) : list ui_event * session_state :=
  let s := set_thresholds (thr_inputs u) s in
  let ev0 := show_status s in
  let s := if start_btn u then set_running true s else s in
  let s := if stop_btn u then set_running false s else s in
  let s := if pause_alarm_btn u then set_alarm_paused (negb (alarm_paused s)) s else s in
  let '(ev1, s) := if save_log_btn u then save_log (now_strftime u) s else ([], s) in
  let '(ev2, s) := if running s then main_loop u s else ([], s) in
  (ev0 ++ ev1 ++ ev2, s).

(** A session: the script run again and again, each time on what the last
    run left in the session state. *)
Fixpoint session (us : list ui_inputs) (s : session_state) : session_state :=
  match us with
  | [] => s
  | u :: us' => session us' (snd (script_run u s))
  end.

End Script.

(** ** Notions used to state the properties *)

(** The name a channel has in the alarm messages and in the log header. *)
Definition channel_name (c : channel) : string :=
  match c with
  | ChTemp => "TEMP"
  | ChHumid => "HUMID"
  | ChO2 => "O2"
  | ChCO2 => "CO2"
  | ChFan => "FAN"
  end.

(** A value of a reading: a float, or the integer fan speed. *)
Inductive value : Type :=
| VFloat (x : float)
| VInt (n : Z).

Definition channel_value (c : channel) (r : reading) : value :=
  match c with
  | ChTemp => VFloat (TEMP r)
  | ChHumid => VFloat (HUMID r)
  | ChO2 => VFloat (O2 r)
  | ChCO2 => VFloat (CO2 r)
  | ChFan => VInt (FAN r)
  end.

Definition channel_min (c : channel) (th : thresholds_t) : float :=
  match c with
  | ChTemp => TEMP_min th
  | ChHumid => HUMID_min th
  | ChO2 => O2_min th
  | ChCO2 => CO2_min th
  | ChFan => FAN_min th
  end.

Definition channel_max (c : channel) (th : thresholds_t) : float :=
  match c with
  | ChTemp => TEMP_max th
  | ChHumid => HUMID_max th
  | ChO2 => O2_max th
  | ChCO2 => CO2_max th
  | ChFan => FAN_max th
  end.

(** Python's [<], [>] and [==] between a value of a reading and a bound. *)
Definition value_lt (v : value) (x : float) : bool :=
  match v with VFloat a => float_lt a x | VInt n => int_lt_float n x end.
Definition value_gt (v : value) (x : float) : bool :=
  match v with VFloat a => float_gt a x | VInt n => int_gt_float n x end.
Definition value_eq (v : value) (x : float) : bool :=
  match v with VFloat a => float_eq a x | VInt n => int_eq_float n x end.

Definition value_str (v : value) : string :=
  match v with VFloat a => float_str a | VInt n => int_str n end.

(** The value lies strictly outside [min, max]. *)
Definition outside_range (c : channel) (r : reading) (th : thresholds_t) : bool :=
  value_lt (channel_value c r) (channel_min c th)
  || value_gt (channel_value c r) (channel_max c th).

(** The message that reports a channel. *)
Definition alarm_message (r : reading) (c : channel) : string :=
  (channel_name c ++ " " ++ value_str (channel_value c r))%string.

(** The alarm evaluation on the values of a reading. *)
Definition reading_alarms (r : reading) (th : thresholds_t) : list string :=
  evaluate_alarms (TEMP r) (HUMID r) (O2 r) (CO2 r) (FAN r) th.

(** A list of alarm messages flags a channel when one of them starts with
    the channel's name and a space. *)
Definition flagged (c : channel) (alarms : list string) : bool :=
  existsb (String.prefix (channel_name c ++ " ")) alarms.

(** The last [n] items of a list, oldest first. *)
Definition lastn {A : Type} (n : nat) (l : list A) : list A :=
  skipn (List.length l - n) l.

(** Every trend buffer holds [n] items and drops its oldest item beyond
    them. *)
Definition full_deque (n : nat) (d : Deque.deque) : Prop :=
  Deque.maxlen d = n /\ List.length (Deque.items d) = n.

Definition buffers_full (n : nat) (s : session_state) : Prop :=
  full_deque n (temp_buffer s) /\ full_deque n (humid_buffer s)
  /\ full_deque n (o2_buffer s) /\ full_deque n (co2_buffer s).

Section Ticks.

Variable sin : float -> float.

(** The values a tick appends to the trend buffers and rounds into its
    reading, as functions of the simulated time [t] the tick reaches. *)
Definition tick_temp (w : tick_env) (t : float) : float :=
  if float_ge (manual_temp w) 0 then manual_temp w
  else (37.0 + 0.3 * sin (0.05 * t)
        + (if simulate_noise w then uniform (-0.2) 0.2 (rand_temp w) else 0))%float.

Definition tick_humid (w : tick_env) (t : float) : float :=
  if float_ge (manual_humid w) 0 then manual_humid w
  else (60 + 5 * sin (0.03 * t)
        + (if simulate_noise w then uniform (-2) 2 (rand_humid w) else 0))%float.

Definition tick_o2 (w : tick_env) (t : float) : float :=
  (21 + 0.5 * sin (0.02 * t)
   + (if simulate_noise w then uniform (-0.3) 0.3 (rand_o2 w) else 0))%float.

Definition tick_co2 (w : tick_env) (t : float) : float :=
  (0.04 + 0.01 * sin (0.01 * t)
   + (if simulate_noise w then uniform (-0.005) 0.005 (rand_co2 w) else 0))%float.

Definition tick_fan (w : tick_env) (t : float) : float :=
  (50 + 10 * sin (0.02 * t)
   + (if simulate_noise w then uniform (-5) 5 (rand_fan w) else 0))%float.

(** Ticks run one after the other, up to the first exception. *)
Fixpoint run_ticks (ticks : list (float * tick_env)) : M (list reading) :=
  match ticks with
  | [] => ret []
  | (dt, w) :: ticks' =>
      bind (simulate_step sin dt w)
        (fun r => bind (run_ticks ticks') (fun rs => ret (r :: rs)))
  end.

(** The simulated times a run of ticks goes through. *)
Fixpoint tick_times (ticks : list (float * tick_env)) (t : float)
  : list (tick_env * float) :=
  match ticks with
  | [] => []
  | (dt, w) :: ticks' => (w, (t + dt)%float) :: tick_times ticks' (t + dt)%float
  end.

(** The reading of a tick without noise and without overrides, from the
    simulated time alone: the four rounded sinusoids and the fan speed. *)
Definition sinusoid_reading (t : float) : float * float * float * float * result Z :=
  (round_ndigits (37.0 + 0.3 * sin (0.05 * t))%float 2,
   round_ndigits (60 + 5 * sin (0.03 * t))%float 1,
   round_ndigits (21 + 0.5 * sin (0.02 * t))%float 2,
   round_ndigits (0.04 + 0.01 * sin (0.01 * t))%float 3,
   round_int (50 + 10 * sin (0.02 * t))%float).

End Ticks.

(** A polynomial stand-in for the C library's sine, to run the step on
    examples; it is exact at 0. *)
Definition sin_poly (x : float) : float :=
  (x - x * x * x / 6 + x * x * x * x * x / 120)%float.

Section TickResults.

Variable sin : float -> float.

(** The reading a tick builds at simulated time [t], given the rounded fan
    speed. *)
Definition reading_at (w : tick_env) (th : thresholds_t) (t : float) (fan_int : Z)
  : reading :=
  let vT := round_ndigits (tick_temp sin w t) 2 in
  let vH := round_ndigits (tick_humid sin w t) 1 in
  let vO := round_ndigits (tick_o2 sin w t) 2 in
  let vC := round_ndigits (tick_co2 sin w t) 3 in
  {| timestamp := now_isoformat w; TEMP := vT; HUMID := vH; O2 := vO; CO2 := vC;
     FAN := fan_int; alarm := alarm_text (evaluate_alarms vT vH vO vC fan_int th) |}.

(** The session state once a tick has appended to the four buffers. *)
Definition pushed_state (w : tick_env) (t : float) (s : session_state) : session_state :=
  push_buffers (tick_temp sin w t) (tick_humid sin w t) (tick_o2 sin w t)
    (tick_co2 sin w t) (set_sim_t t s).

End TickResults.

(** The five numbers of a reading. *)
Definition numeric_fields (r : reading) : float * float * float * float * Z :=
  (TEMP r, HUMID r, O2 r, CO2 r, FAN r).

(** Noise is off and both manual overrides are negative. *)
Definition noiseless (w : tick_env) : Prop :=
  simulate_noise w = false
  /\ float_lt (manual_temp w) 0 = true
  /\ float_lt (manual_humid w) 0 = true.

(** [n] is an integer nearest to the float [x]. *)
Definition nearest_integer (x : float) (n : Z) : Prop :=
  match Prim2SF x with
  | S754_finite s m e =>
      (2 * Z.abs (n * sf_den e - cond_Zopp s (sf_num m e)) <= sf_den e)%Z
  | S754_zero _ => n = 0%Z
  | _ => False
  end.

(** The value of a finite float, scaled by [2^1074] into an integer. *)
Definition scaled (f : spec_float) : Z :=
  match f with
  | S754_finite s m e => cond_Zopp s (Zpos m * 2 ^ (e + 1074))%Z
  | _ => 0%Z
  end.

Definition finite_or_zero (f : spec_float) : bool :=
  match f with
  | S754_finite _ _ _ | S754_zero _ => true
  | _ => false
  end.

Definition channel_eqb (c c' : channel) : bool :=
  match c, c' with
  | ChTemp, ChTemp | ChHumid, ChHumid | ChO2, ChO2 | ChCO2, ChCO2 | ChFan, ChFan => true
  | _, _ => false
  end.

(** *** Sample inputs *)

(** The sidebar as it first shows: noise on, no override. *)
Definition default_env : tick_env :=
  {| simulate_noise := true; manual_temp := (-1); manual_humid := (-1);
     now_isoformat := "2024-05-01T12:00:00.000000";
     rand_temp := 0.5; rand_humid := 0.25; rand_o2 := 0.75; rand_co2 := 0.5;
     rand_fan := 0.125 |}.

(** Noise switched off. *)
Definition quiet_env : tick_env :=
  {| simulate_noise := false; manual_temp := (-1); manual_humid := (-1);
     now_isoformat := "2024-05-01T12:00:00.000000";
     rand_temp := 0.5; rand_humid := 0.25; rand_o2 := 0.75; rand_co2 := 0.5;
     rand_fan := 0.125 |}.

(** Noise off and the temperature forced to 37.123. *)
Definition override_env : tick_env :=
  {| simulate_noise := false; manual_temp := 37.123; manual_humid := (-1);
     now_isoformat := "2024-05-01T12:00:00.000000";
     rand_temp := 0.5; rand_humid := 0.25; rand_o2 := 0.75; rand_co2 := 0.5;
     rand_fan := 0.125 |}.

(** Noise off and the temperature forced to 38.0. *)
Definition hot_env : tick_env :=
  {| simulate_noise := false; manual_temp := 38.0; manual_humid := (-1);
     now_isoformat := "2024-05-01T12:00:00.000000";
     rand_temp := 0.5; rand_humid := 0.25; rand_o2 := 0.75; rand_co2 := 0.5;
     rand_fan := 0.125 |}.

(** Thresholds whose temperature bounds are swapped. *)
Definition swapped_thresholds : thresholds_t :=
  {| TEMP_min := 38.0; TEMP_max := 36.0;
     HUMID_min := 50; HUMID_max := 70;
     O2_min := 19; O2_max := 25;
     CO2_min := 0.03; CO2_max := 0.06;
     FAN_min := 0; FAN_max := 100 |}.

Definition sample_reading (temp : float) : reading :=
  {| timestamp := "2024-05-01T12:00:00.000000"; TEMP := temp; HUMID := 60; O2 := 21;
     CO2 := 0.04; FAN := 50; alarm := "" |}.

(** The reading of a result, when there is one. *)
Definition the_reading (r : result reading) : reading :=
  match r with
  | Ok rec => rec
  | Raise _ => sample_reading 0
  end.

Definition the_readings (r : result (list reading)) : list reading :=
  match r with
  | Ok l => l
  | Raise _ => []
  end.

Section Pushed.

Variable sin : float -> float.

(** The values a run of ticks appends to each trend buffer, in order. *)
Definition pushed_temps (ticks : list (float * tick_env)) (t0 : float) : list float :=
  map (fun p => tick_temp sin (fst p) (snd p)) (tick_times ticks t0).
Definition pushed_humids (ticks : list (float * tick_env)) (t0 : float) : list float :=
  map (fun p => tick_humid sin (fst p) (snd p)) (tick_times ticks t0).
Definition pushed_o2s (ticks : list (float * tick_env)) (t0 : float) : list float :=
  map (fun p => tick_o2 sin (fst p) (snd p)) (tick_times ticks t0).
Definition pushed_co2s (ticks : list (float * tick_env)) (t0 : float) : list float :=
  map (fun p => tick_co2 sin (fst p) (snd p)) (tick_times ticks t0).

End Pushed.

(** A plot shows [n] values. *)
Definition plot_has (n : nat) (ev : ui_event) : Prop :=
  match ev with
  | UiPlot _ data => List.length data = n
  | _ => True
  end.

(** The event writes a file. *)
Definition writes_file (ev : ui_event) : bool :=
  match ev with
  | UiToCsv _ _ _ => true
  | _ => false
  end.

(** ** The vitals panel: [clamp], [percent_in_range] and [show_metric] *)

(** What the panel's arithmetic can raise: a division by zero, or one of the
    exceptions of the conversions between integers and floats. *)
Inductive panel_exn : Type :=
| ZeroDivisionError
| ConversionError (e : exn).

Inductive outcome (A : Type) : Type :=
| Returns (a : A)
| Throws (e : panel_exn).
Arguments Returns {A} a.
Arguments Throws {A} e.

(** [min(a, b)] and [max(a, b)] on two floats: the first argument stays
    unless the second is strictly smaller (strictly larger). *)
Definition min2 (a b : float) : float := if float_lt b a then b else a.
Definition max2 (a b : float) : float := if float_gt b a then b else a.

Definition clamp (x a b : float) : float := max2 a (min2 b x).

(** The conversion of an integer operand of a float operation: correctly
    rounded, [OverflowError] beyond the range of doubles. *)
Definition int_to_float (n : Z) : outcome float :=
  match binary_normalize prec emax n 0 false with
  | S754_infinity _ => Throws (ConversionError OverflowError)
  | f => Returns (SF2Prim f)
  end.

Definition value_to_float (v : value) : outcome float :=
  match v with
  | VFloat x => Returns x
  | VInt n => int_to_float n
  end.

(** Python's [>=] between a value of a reading and a bound. *)
Definition value_ge (v : value) (x : float) : bool :=
  match v with
  | VFloat a => float_ge a x
  | VInt n => match int_compare_float n x with Some (Gt | Eq) => true | _ => false end
  end.

(** [x / y] on floats. *)
Definition float_div (x y : float) : outcome float :=
  if float_eq y 0 then Throws ZeroDivisionError else Returns (x / y)%float.

(** [int(v)]: an integer as it is, a float truncated towards zero. *)
Definition int_of_value (v : value) : outcome Z :=
  match v with
  | VInt n => Returns n
  | VFloat x =>
      match Prim2SF x with
      | S754_nan => Throws (ConversionError ValueError)
      | S754_infinity _ => Throws (ConversionError OverflowError)
      | S754_zero _ => Returns 0%Z
      | S754_finite s m e => Returns (cond_Zopp s (sf_num m e / sf_den e))%Z
      end
  end.

Definition percent_in_range (v : value) (vmin vmax : float) : outcome value :=
  if float_eq vmax vmin then
    Returns (VInt (if value_ge v vmax then 100 else 0))
  else
    match value_to_float v with
    | Throws e => Throws e
    | Returns x =>
        match float_div (x - vmin)%float (vmax - vmin)%float with
        | Throws e => Throws e
        | Returns q => Returns (VFloat (clamp (q * 100.0)%float 0.0 100.0))
        end
    end.

(** What the panel draws. *)
Inductive panel_event : Type :=
| Markdown (body : string)
| Progress (percent : Z).

(** The line of a metric, in the colour given. *)
Definition metric_line (name colour : string) (v : value) (unit : string) : string :=
  ("**" ++ name ++ "**: <span style='color:" ++ colour ++ "'>"
        ++ value_str v ++ unit ++ "</span>")%string.

(** [show_metric]: what it has drawn, and the exception that stopped it, if
    one did. *)
Definition show_metric (name : string) (v : value) (vmin vmax : float) (unit : string)
  : list panel_event * option panel_exn :=
  match percent_in_range v vmin vmax with
  | Throws e => ([], Some e)
  | Returns pct =>
      if value_lt v vmin || value_gt v vmax then
        match int_of_value pct with
        | Throws e => ([Markdown (metric_line name "red" v unit)], Some e)
        | Returns n => ([Markdown (metric_line name "red" v unit); Progress n], None)
        end
      else
        match int_of_value pct with
        | Throws e => ([Markdown (metric_line name "#00b894" v unit)], Some e)
        | Returns n => ([Markdown (metric_line name "#00b894" v unit); Progress n], None)
        end
  end.

(** One drawing after another, up to the first exception. *)
Definition and_then (a b : list panel_event * option panel_exn)
  : list panel_event * option panel_exn :=
  match snd a with
  | Some e => a
  | None => (fst a ++ fst b, snd b)
  end.

(** The five calls of [show_metric] in the "Parameters" block. *)
Definition show_vitals (rec : reading) (thr : thresholds_t)
  : list panel_event * option panel_exn :=
  and_then (show_metric "TEMP (°C)" (VFloat (TEMP rec)) (TEMP_min thr) (TEMP_max thr) " °C")
    (and_then (show_metric "HUMID (%)" (VFloat (HUMID rec)) (HUMID_min thr) (HUMID_max thr) " %")
       (and_then (show_metric "O₂ (%)" (VFloat (O2 rec)) (O2_min thr) (O2_max thr) " %")
          (and_then (show_metric "CO₂ (%)" (VFloat (CO2 rec)) (CO2_min thr) (CO2_max thr) " %")
             (show_metric "FAN (%)" (VInt (FAN rec)) (FAN_min thr) (FAN_max thr) " %")))).

(** The label and the unit of a channel in the panel. *)
Definition metric_name (c : channel) : string :=
  match c with
  | ChTemp => "TEMP (°C)"
  | ChHumid => "HUMID (%)"
  | ChO2 => "O₂ (%)"
  | ChCO2 => "CO₂ (%)"
  | ChFan => "FAN (%)"
  end.

Definition metric_unit (c : channel) : string :=
  match c with
  | ChTemp => " °C"
  | _ => " %"
  end.

(** The metric of a channel, as [show_vitals] calls it. *)
Definition channel_metric (c : channel) (rec : reading) (thr : thresholds_t)
  : list panel_event * option panel_exn :=
  show_metric (metric_name c) (channel_value c rec) (channel_min c thr) (channel_max c thr)
    (metric_unit c).

(** ** Further notions used to state properties *)

(** A row has one cell for each column of the CSV header, of the column's
    kind. *)
Definition row_matches_header (r : row) : bool :=
  match r with
  | [CellStr _; CellFloat _; CellFloat _; CellFloat _; CellFloat _; CellInt _; CellStr _] =>
      true
  | _ => false
  end.

Section TickDefined.

Variable sin : float -> float.

(** No call of [math.sin] raises at simulated time [t], and the fan value
    is a finite float. *)
Definition tick_defined (w : tick_env) (t : float) : Prop :=
  (exists a b c d,
      math_sin sin (0.05 * t) = Ok a /\ math_sin sin (0.03 * t) = Ok b
      /\ math_sin sin (0.02 * t) = Ok c /\ math_sin sin (0.01 * t) = Ok d)
  /\ is_finite (tick_fan sin w t) = true.

End TickDefined.

(** The state a run of the script hands to its tick: the sidebar's
    thresholds stored and the three buttons handled. *)
Definition after_buttons (u : ui_inputs) (s : session_state) : session_state :=
  let s := set_thresholds (thr_inputs u) s in
  let s := if start_btn u then set_running true s else s in
  let s := if stop_btn u then set_running false s else s in
  if pause_alarm_btn u then set_alarm_paused (negb (alarm_paused s)) s else s.

(** A run of the script with no button pressed. *)
Definition idle_inputs : ui_inputs :=
  {| start_btn := false; stop_btn := false; pause_alarm_btn := false;
     save_log_btn := false; clear_log_btn := false;
     thr_inputs := default_thresholds; sim_speed := 200;
     now_strftime := "20240501_120000"; env := default_env |}.

(** The Clear Log button pressed. *)
Definition clear_inputs : ui_inputs :=
  {| start_btn := false; stop_btn := false; pause_alarm_btn := false;
     save_log_btn := false; clear_log_btn := true;
     thr_inputs := default_thresholds; sim_speed := 200;
     now_strftime := "20240501_120000"; env := default_env |}.

(** A percentage that [int] turns into a number from 0 to 100: the integer
    0 or 100, or a float between 0.0 and 100.0. *)
Definition percent_ok (p : value) : Prop :=
  match p with
  | VInt n => n = 0%Z \/ n = 100%Z
  | VFloat r => float_le 0 r = true /\ float_le r 100 = true
  end.

(** The colour of a channel's line when the panel agrees with the alarms. *)
Definition metric_colour (c : channel) (rec : reading) (thr : thresholds_t) : string :=
  if flagged c (reading_alarms rec thr) then "red" else "#00b894".

(** The line and the bar of a channel. *)
Definition metric_drawing (c : channel) (rec : reading) (thr : thresholds_t) (n : Z)
  : list panel_event :=
  [Markdown (metric_line (metric_name c) (metric_colour c rec thr) (channel_value c rec)
               (metric_unit c));
   Progress n].

(** A row fits the CSV header. *)
Definition header_row (r : row) : Prop :=
  row_matches_header r = true /\ List.length r = List.length csv_columns.

(** * Properties *)

(** ** The number model on known values *)

Example round_ndigits_half_down : round_ndigits 2.675 2 = 2.67%float.
Proof. vm_compute. reflexivity. Qed.

Example round_ndigits_tie_even : round_ndigits 0.125 2 = 0.12%float.
Proof. vm_compute. reflexivity. Qed.

Example round_ndigits_keeps_sign : round_ndigits (-0.001) 2 = (-0)%float.
Proof. vm_compute. reflexivity. Qed.

Example round_int_ties :
  round_int 2.5 = Ok 2%Z /\ round_int 3.5 = Ok 4%Z /\ round_int (-2.5) = Ok (-2)%Z.
Proof. repeat split; vm_compute; reflexivity. Qed.

Example round_int_raises :
  round_int nan = Raise ValueError /\ round_int infinity = Raise OverflowError.
Proof. repeat split; vm_compute; reflexivity. Qed.

Example float_str_samples :
  float_str 38.5 = "38.5"%string
  /\ float_str 37 = "37.0"%string
  /\ float_str 0.04 = "0.04"%string
  /\ float_str (0.1 + 0.2) = "0.30000000000000004"%string
  /\ float_str 1e16 = "1e+16"%string
  /\ float_str 0.00001 = "1e-05"%string
  /\ float_str (-0) = "-0.0"%string.
Proof. repeat split; vm_compute; reflexivity. Qed.

Example int_against_float :
  int_lt_float 9007199254740993 9007199254740992 = false
  /\ int_gt_float 9007199254740993 9007199254740992 = true
  /\ int_eq_float 50 50 = true
  /\ int_lt_float 50 nan = false.
Proof. repeat split; vm_compute; reflexivity. Qed.

(** The scenario of the thresholds 36..38: 38.5 is reported, 37.0 is not. *)
Example alarm_scenario :
  reading_alarms (sample_reading 38.5) default_thresholds = ["TEMP 38.5"%string]
  /\ reading_alarms (sample_reading 37.0) default_thresholds = [].
Proof. repeat split; vm_compute; reflexivity. Qed.

(** ** Lists and deques *)

Section ListFacts.
Context {A : Type}.
Implicit Types l xs : list A.

Lemma lastn_all n l : (List.length l <= n)%nat -> lastn n l = l.
Proof.
  intros H. unfold lastn. replace (List.length l - n)%nat with 0%nat by lia. reflexivity.
Qed.

Lemma lastn_length n l : List.length (lastn n l) = Nat.min n (List.length l).
Proof. unfold lastn. rewrite length_skipn. lia. Qed.

Lemma lastn_app_ge n l xs : (n <= List.length xs)%nat -> lastn n (l ++ xs) = lastn n xs.
Proof.
  intros H. unfold lastn. rewrite length_app, skipn_app.
  replace (List.length l + List.length xs - n - List.length l)%nat
    with (List.length xs - n)%nat by lia.
  rewrite skipn_all2 by lia. reflexivity.
Qed.

Lemma lastn_lastn_app n l xs : lastn n (lastn n l ++ xs) = lastn n (l ++ xs).
Proof.
  destruct (Nat.le_gt_cases (List.length l) n) as [H | H].
  - rewrite (lastn_all n l) by exact H. reflexivity.
  - unfold lastn at 1 3. rewrite !length_app, lastn_length, !skipn_app, lastn_length.
    unfold lastn. rewrite skipn_skipn.
    replace (Nat.min n (List.length l) + List.length xs - n + (List.length l - n))%nat
      with (List.length l + List.length xs - n)%nat by lia.
    f_equal. f_equal. lia.
Qed.

Lemma tl_skipn l : tl l = skipn 1 l.
Proof. destruct l; reflexivity. Qed.
End ListFacts.

Lemma append_maxlen d x : Deque.maxlen (Deque.append d x) = Deque.maxlen d.
Proof. reflexivity. Qed.

Lemma append_items d x :
  (List.length (Deque.items d) <= Deque.maxlen d)%nat ->
  Deque.items (Deque.append d x) = lastn (Deque.maxlen d) (Deque.items d ++ [x]).
Proof.
  intros H. unfold Deque.append. cbn [Deque.items].
  destruct (Nat.ltb_spec (Deque.maxlen d) (List.length (Deque.items d ++ [x]))) as [Hlt | Hge].
  - rewrite tl_skipn. unfold lastn. f_equal. rewrite length_app in *. simpl in *. lia.
  - symmetry. apply lastn_all. exact Hge.
Qed.

Lemma append_length_le d x :
  (List.length (Deque.items d) <= Deque.maxlen d)%nat ->
  (List.length (Deque.items (Deque.append d x)) <= Deque.maxlen (Deque.append d x))%nat.
Proof.
  intros H. rewrite append_items by exact H. rewrite lastn_length, append_maxlen. lia.
Qed.

Lemma fold_append d xs :
  (List.length (Deque.items d) <= Deque.maxlen d)%nat ->
  Deque.maxlen (fold_left Deque.append xs d) = Deque.maxlen d
  /\ Deque.items (fold_left Deque.append xs d) = lastn (Deque.maxlen d) (Deque.items d ++ xs).
Proof.
  revert d. induction xs as [| x xs IH]; intros d H; cbn [fold_left].
  - split; [reflexivity |]. rewrite app_nil_r. symmetry. apply lastn_all. exact H.
  - destruct (IH (Deque.append d x) (append_length_le d x H)) as [Hm Hi].
    split; [rewrite Hm; reflexivity |].
    rewrite Hi, append_maxlen, append_items by exact H.
    rewrite lastn_lastn_app, <- app_assoc. reflexivity.
Qed.

Lemma append_full n d x : full_deque n d -> full_deque n (Deque.append d x).
Proof.
  intros [Hm Hl]. split; [exact Hm |].
  rewrite append_items by lia. rewrite lastn_length, length_app. simpl. lia.
Qed.

Lemma make_repeat x n :
  Deque.items (Deque.make (repeat x n) n) = repeat x n /\ Deque.maxlen (Deque.make (repeat x n) n) = n.
Proof.
  unfold Deque.make.
  destruct (fold_append {| Deque.items := []; Deque.maxlen := n |} (repeat x n)) as [Hm Hi].
  - simpl. lia.
  - split; [| exact Hm]. rewrite Hi. cbn [Deque.items Deque.maxlen app].
    apply lastn_all. rewrite repeat_length. lia.
Qed.

(** ** Comparisons of floats *)

Lemma SFcompare_antisym a b : SFcompare b a = option_map CompOpp (SFcompare a b).
Proof.
  assert (Hp : forall p q, Pos.compare_cont Eq q p = CompOpp (Pos.compare_cont Eq p q)).
  { intros p q. rewrite (Pos.compare_cont_antisym p q Eq). reflexivity. }
  destruct a as [sa | sa | | sa ma ea], b as [sb | sb | | sb mb eb]; cbn;
    try reflexivity; try (destruct sa; reflexivity); try (destruct sb; reflexivity);
    try (destruct sa, sb; reflexivity).
  destruct sa, sb; cbn; try reflexivity;
    rewrite (Z.compare_antisym ea eb); destruct (ea ?= eb)%Z; cbn; try reflexivity;
    rewrite (Hp ma mb); destruct (Pos.compare_cont Eq ma mb); reflexivity.
Qed.

Lemma SFcompare_Eq_cong a b c :
  SFcompare a b = Some Eq -> SFcompare a c = SFcompare b c.
Proof.
  destruct a as [sa | sa | | sa ma ea], b as [sb | sb | | sb mb eb]; cbn;
    try discriminate; try (destruct sa; discriminate); try (destruct sb; discriminate).
  - intros _. destruct c; reflexivity.
  - destruct sa, sb; try discriminate; reflexivity.
  - destruct sa, sb; try discriminate;
      destruct (ea ?= eb)%Z eqn:He; try discriminate;
      apply Z.compare_eq in He; subst eb;
      destruct (Pos.compare_cont Eq ma mb) eqn:Hm; try discriminate;
      apply Pos.compare_eq in Hm; subst mb; reflexivity.
Qed.

Lemma float_boundary_inside (v mn mx : float) :
  float_le mn mx = true ->
  float_eq v mn = true \/ float_eq v mx = true ->
  float_lt v mn = false /\ float_gt v mx = false.
Proof.
  unfold float_le, float_eq, float_lt, float_gt.
  rewrite leb_spec, !eqb_spec, !ltb_spec. unfold SFleb, SFeqb, SFltb.
  intros Hle [He | He].
  - destruct (SFcompare (Prim2SF v) (Prim2SF mn)) as [[| |] |] eqn:E; try discriminate.
    split; [reflexivity |].
    rewrite (SFcompare_antisym (Prim2SF v) (Prim2SF mx)), (SFcompare_Eq_cong _ _ _ E).
    destruct (SFcompare (Prim2SF mn) (Prim2SF mx)) as [[| |] |]; try discriminate; reflexivity.
  - destruct (SFcompare (Prim2SF v) (Prim2SF mx)) as [[| |] |] eqn:E; try discriminate.
    rewrite (SFcompare_antisym (Prim2SF v) (Prim2SF mx)), E. split; [| reflexivity].
    rewrite (SFcompare_Eq_cong _ _ (Prim2SF mn) E).
    rewrite (SFcompare_antisym (Prim2SF mn) (Prim2SF mx)).
    destruct (SFcompare (Prim2SF mn) (Prim2SF mx)) as [[| |] |]; try discriminate; reflexivity.
Qed.

Lemma float_lt_not_ge (x y : float) : float_lt x y = true -> float_ge x y = false.
Proof.
  unfold float_lt, float_ge. rewrite ltb_spec, leb_spec. unfold SFltb, SFleb.
  rewrite (SFcompare_antisym (Prim2SF x) (Prim2SF y)).
  destruct (SFcompare (Prim2SF x) (Prim2SF y)) as [[| |] |]; try discriminate; reflexivity.
Qed.

(** ** Exact values of floats, and integers against floats *)

Local Open Scope Z_scope.

Lemma digits2_pos_bounds m :
  2 ^ (Zpos (digits2_pos m) - 1) <= Zpos m < 2 ^ Zpos (digits2_pos m).
Proof.
  induction m as [m IH | m IH |]; cbn [digits2_pos].
  - rewrite Pos2Z.inj_succ.
    replace (Z.succ (Zpos (digits2_pos m)) - 1) with (Z.succ (Zpos (digits2_pos m) - 1)) by lia.
    rewrite !Z.pow_succ_r by lia. lia.
  - rewrite Pos2Z.inj_succ.
    replace (Z.succ (Zpos (digits2_pos m)) - 1) with (Z.succ (Zpos (digits2_pos m) - 1)) by lia.
    rewrite !Z.pow_succ_r by lia. lia.
  - cbn. lia.
Qed.

Lemma valid_finite_bounds s m e :
  valid_binary (S754_finite s m e) = true ->
  -1074 <= e /\ Zpos m < 2 ^ 53 /\ (-1074 < e -> 2 ^ 52 <= Zpos m).
Proof.
  cbn [SpecFloat.valid_binary]. unfold bounded, canonical_mantissa, fexp, SpecFloat.emin.
  intros H. apply andb_true_iff in H as [H _]. apply Z.eqb_eq in H.
  change (3 - emax - prec) with (-1074) in H. change prec with 53 in H.
  pose proof (digits2_pos_bounds m) as [Hlo Hhi].
  assert (Hd : Zpos (digits2_pos m) <= 53) by lia.
  split; [lia |]. split.
  - eapply Z.lt_le_trans; [exact Hhi |]. apply Z.pow_le_mono_r; lia.
  - intros He. assert (Zpos (digits2_pos m) = 53) as Hd53 by lia.
    rewrite Hd53 in Hlo. exact Hlo.
Qed.

Lemma mul_compare_mono_r p n m : 0 < p -> (n * p ?= m * p) = (n ?= m).
Proof. intros H. symmetry. apply Zmult_compare_compat_r. lia. Qed.

Lemma pos_compare_cont_Z m1 m2 : Pos.compare_cont Eq m1 m2 = (Zpos m1 ?= Zpos m2).
Proof. reflexivity. Qed.

Lemma scaled_lt_by_exponent m1 e1 m2 e2 :
  -1074 <= e1 -> e1 < e2 -> Zpos m1 < 2 ^ 53 -> 2 ^ 52 <= Zpos m2 ->
  Zpos m1 * 2 ^ (e1 + 1074) < Zpos m2 * 2 ^ (e2 + 1074).
Proof.
  intros H1 H12 Hm1 Hm2.
  replace (e2 + 1074) with ((e2 - e1) + (e1 + 1074)) by lia.
  rewrite (Z.pow_add_r 2 (e2 - e1) (e1 + 1074)) by lia.
  assert (HA : 0 < 2 ^ (e1 + 1074)) by (apply Z.pow_pos_nonneg; lia).
  assert (HP : 2 ^ 1 <= 2 ^ (e2 - e1)) by (apply Z.pow_le_mono_r; lia).
  change (2 ^ 1) with 2 in HP. change (2 ^ 53) with (2 * 2 ^ 52) in Hm1.
  assert (H2 : Zpos m2 * 2 <= Zpos m2 * 2 ^ (e2 - e1))
    by (apply Z.mul_le_mono_nonneg_l; lia).
  assert (H3 : Zpos m1 < Zpos m2 * 2 ^ (e2 - e1)) by lia.
  rewrite Z.mul_assoc. apply Z.mul_lt_mono_pos_r; assumption.
Qed.

Lemma SFcompare_scaled a b :
  valid_binary a = true -> valid_binary b = true ->
  finite_or_zero a = true -> finite_or_zero b = true ->
  SFcompare a b = Some (scaled a ?= scaled b).
Proof.
  intros Va Vb Fa Fb.
  destruct a as [sa | sa | | sa ma ea], b as [sb | sb | | sb mb eb]; try discriminate;
    cbn [SFcompare scaled].
  - reflexivity.
  - assert (0 < Zpos mb * 2 ^ (eb + 1074)).
    { apply Z.mul_pos_pos; [lia |]. apply Z.pow_pos_nonneg; [lia |].
      apply valid_finite_bounds in Vb. lia. }
    f_equal. symmetry. destruct sb; cbn [cond_Zopp]; [apply Z.compare_gt_iff | apply Z.compare_lt_iff]; lia.
  - assert (0 < Zpos ma * 2 ^ (ea + 1074)).
    { apply Z.mul_pos_pos; [lia |]. apply Z.pow_pos_nonneg; [lia |].
      apply valid_finite_bounds in Va. lia. }
    f_equal. symmetry. destruct sa; cbn [cond_Zopp]; [apply Z.compare_lt_iff | apply Z.compare_gt_iff]; lia.
  - apply valid_finite_bounds in Va as (Ha1 & Ha2 & Ha3).
    apply valid_finite_bounds in Vb as (Hb1 & Hb2 & Hb3).
    assert (HA : 0 < 2 ^ (ea + 1074)) by (apply Z.pow_pos_nonneg; lia).
    assert (HB : 0 < 2 ^ (eb + 1074)) by (apply Z.pow_pos_nonneg; lia).
    assert (Hcases :
      match ea ?= eb with
      | Lt => Zpos ma * 2 ^ (ea + 1074) < Zpos mb * 2 ^ (eb + 1074)
      | Gt => Zpos mb * 2 ^ (eb + 1074) < Zpos ma * 2 ^ (ea + 1074)
      | Eq => ea = eb
      end).
    { destruct (Z.compare_spec ea eb) as [E | E | E]; [exact E | |];
        apply scaled_lt_by_exponent; lia. }
    f_equal. symmetry.
    destruct sa, sb; cbn [cond_Zopp].
    + destruct (ea ?= eb) eqn:E.
      * subst eb. rewrite pos_compare_cont_Z, Z.compare_opp.
        rewrite mul_compare_mono_r by exact HA. apply Z.compare_antisym.
      * apply Z.compare_gt_iff. lia.
      * apply Z.compare_lt_iff. lia.
    + apply Z.compare_lt_iff. nia.
    + apply Z.compare_gt_iff. nia.
    + destruct (ea ?= eb) eqn:E.
      * subst eb. rewrite pos_compare_cont_Z.
        apply mul_compare_mono_r. exact HA.
      * apply Z.compare_lt_iff. lia.
      * apply Z.compare_gt_iff. lia.
Qed.

Lemma int_compare_scaled z x :
  finite_or_zero (Prim2SF x) = true ->
  int_compare_float z x = Some (z * 2 ^ 1074 ?= scaled (Prim2SF x)).
Proof.
  unfold int_compare_float. pose proof (Prim2SF_valid x) as V.
  destruct (Prim2SF x) as [s | s | | s m e]; try discriminate; intros _; cbn [scaled].
  - f_equal. symmetry. apply (mul_compare_mono_r (2 ^ 1074) z 0). reflexivity.
  - apply valid_finite_bounds in V as (He & _ & _).
    f_equal. unfold sf_den, sf_num.
    destruct (Z.leb_spec 0 e) as [H0 | H0].
    + rewrite Z.mul_1_r. replace (e + 1074) with (1074 + e) by lia.
      rewrite Z.pow_add_r by lia.
      replace (cond_Zopp s (Zpos m * (2 ^ 1074 * 2 ^ e)))
        with (cond_Zopp s (Zpos m * 2 ^ e) * 2 ^ 1074) by (destruct s; cbn [cond_Zopp]; ring).
      symmetry. apply mul_compare_mono_r. reflexivity.
    + assert (HP : 0 < 2 ^ (e + 1074)) by (apply Z.pow_pos_nonneg; lia).
      rewrite <- (mul_compare_mono_r (2 ^ (e + 1074)) _ _ HP).
      f_equal.
      * rewrite <- Z.mul_assoc, <- Z.pow_add_r by lia. f_equal. f_equal. lia.
      * destruct s; cbn [cond_Zopp]; ring.
Qed.

Lemma int_boundary_inside (z : Z) (mn mx : float) :
  float_le mn mx = true ->
  int_eq_float z mn = true \/ int_eq_float z mx = true ->
  int_lt_float z mn = false /\ int_gt_float z mx = false.
Proof.
  unfold float_le, int_eq_float, int_lt_float, int_gt_float.
  rewrite leb_spec. unfold SFleb.
  intros Hle Heq.
  destruct (finite_or_zero (Prim2SF mn)) eqn:Fn, (finite_or_zero (Prim2SF mx)) eqn:Fx.
  - rewrite (SFcompare_scaled _ _ (Prim2SF_valid mn) (Prim2SF_valid mx) Fn Fx) in Hle.
    rewrite !int_compare_scaled in * by assumption.
    destruct (Z.compare_spec (scaled (Prim2SF mn)) (scaled (Prim2SF mx))); try discriminate;
    destruct (Z.compare_spec (z * 2 ^ 1074) (scaled (Prim2SF mn)));
    destruct (Z.compare_spec (z * 2 ^ 1074) (scaled (Prim2SF mx)));
    try (split; reflexivity); try lia; destruct Heq; discriminate.
  - rewrite (int_compare_scaled z mn Fn) in *.
    unfold int_compare_float in *.
    destruct (Prim2SF mx) as [sx | sx | | sx mx' ex]; try discriminate;
      destruct (Prim2SF mn) as [sn | sn | | sn mn' en]; try discriminate;
      cbn in Hle; destruct sx; try discriminate;
      destruct Heq as [Heq | Heq]; try discriminate;
      destruct (z * 2 ^ 1074 ?= _); try discriminate; split; reflexivity.
  - rewrite (int_compare_scaled z mx Fx) in *.
    unfold int_compare_float in *.
    destruct (Prim2SF mn) as [sn | sn | | sn mn' en]; try discriminate;
      destruct (Prim2SF mx) as [sx | sx | | sx mx' ex]; try discriminate;
      cbn in Hle; destruct sn; try discriminate;
      destruct Heq as [Heq | Heq]; try discriminate;
      destruct (z * 2 ^ 1074 ?= _); try discriminate; split; reflexivity.
  - unfold int_compare_float in *.
    destruct (Prim2SF mn) as [sn | sn | | sn mn' en]; try discriminate;
      destruct (Prim2SF mx) as [sx | sx | | sx mx' ex]; try discriminate;
      destruct sn, sx; destruct Heq; discriminate.
Qed.

(** ** Adding zero to a float *)

Lemma shr_1_m mrs : 0 <= shr_m mrs -> shr_m (shr_1 mrs) = shr_m mrs / 2.
Proof.
  destruct mrs as [m r s]. cbn [shr_m shr_1]. intros H.
  destruct m as [| [p | p |] | p]; cbn [shr_m]; try reflexivity; try lia.
  - apply Z.div_unique with (r := 1); lia.
  - apply Z.div_unique with (r := 0); lia.
Qed.

Lemma iter_shr_1_m p : forall mrs,
  0 <= shr_m mrs -> shr_m (iter_pos shr_1 p mrs) = shr_m mrs / 2 ^ Zpos p.
Proof.
  assert (Hnn : forall a b, 0 <= a -> 0 < b -> 0 <= a / b)
    by (intros; apply Z.div_pos; lia).
  assert (Hpw : forall q, 0 < 2 ^ Zpos q) by (intros; apply Z.pow_pos_nonneg; lia).
  induction p as [p IH | p IH |]; intros mrs H; cbn [iter_pos].
  - assert (H1 : 0 <= shr_m (shr_1 mrs)) by (rewrite shr_1_m by exact H; apply Hnn; lia).
    assert (H2 : 0 <= shr_m (iter_pos shr_1 p (shr_1 mrs)))
      by (rewrite IH by exact H1; apply Hnn; [exact H1 | apply Hpw]).
    rewrite (IH _ H2), (IH _ H1), (shr_1_m _ H).
    rewrite !Z.div_div by (try apply Hpw; lia).
    f_equal. rewrite Pos2Z.inj_xI, <- Z.pow_add_r, <- Z.pow_succ_r by lia. f_equal. lia.
  - assert (H2 : 0 <= shr_m (iter_pos shr_1 p mrs))
      by (rewrite IH by exact H; apply Hnn; [exact H | apply Hpw]).
    rewrite (IH _ H2), (IH _ H).
    rewrite !Z.div_div by (try apply Hpw; lia).
    f_equal. rewrite Pos2Z.inj_xO, <- Z.pow_add_r by lia. f_equal. lia.
  - rewrite shr_1_m by exact H. reflexivity.
Qed.

Lemma shr_record_of_loc_m m l : shr_m (shr_record_of_loc m l) = m.
Proof. destruct l as [| []]; reflexivity. Qed.

Lemma shr_fexp_pos m e l :
  0 < m -> -1074 <= e ->
  0 < shr_m (fst (shr_fexp prec emax m e l)) /\ -1074 <= snd (shr_fexp prec emax m e l).
Proof.
  intros Hm He. unfold shr_fexp, shr, fexp, SpecFloat.emin.
  change (3 - emax - prec) with (-1074). change prec with 53.
  destruct m as [| m | m]; try lia. cbn [Zdigits2].
  pose proof (digits2_pos_bounds m) as [Hlo Hhi].
  destruct (Z.max (Zpos (digits2_pos m) + e - 53) (-1074) - e) as [| n | n] eqn:En;
    cbn [fst snd]; rewrite ?shr_record_of_loc_m; try (split; lia).
  rewrite iter_shr_1_m by (rewrite shr_record_of_loc_m; lia).
  rewrite shr_record_of_loc_m. split; [| lia].
  apply Z.div_str_pos. split; [apply Z.pow_pos_nonneg; lia |].
  eapply Z.le_trans; [| exact Hlo]. apply Z.pow_le_mono_r; lia.
Qed.

Lemma round_nearest_even_pos m l : 0 < m -> 0 < round_nearest_even m l.
Proof.
  intros H. destruct l as [| []]; cbn [round_nearest_even]; try lia.
  destruct (Z.even m); lia.
Qed.

Lemma binary_round_aux_not_zero sx mx ex lx s :
  0 < mx -> -1074 <= ex -> binary_round_aux prec emax sx mx ex lx <> S754_zero s.
Proof.
  intros Hm He. unfold binary_round_aux.
  pose proof (shr_fexp_pos mx ex lx Hm He) as [H1 H2].
  destruct (shr_fexp prec emax mx ex lx) as [mrs' e']. cbn [fst snd] in H1, H2.
  pose proof (shr_fexp_pos _ e' loc_Exact
                (round_nearest_even_pos _ (loc_of_shr_record mrs') H1) H2) as [H3 _].
  destruct (shr_fexp prec emax _ e' loc_Exact) as [mrs'' e'']. cbn [fst] in H3.
  destruct (shr_m mrs'') as [| m | m]; try lia.
  destruct (e'' <=? emax - prec); discriminate.
Qed.

Lemma binary_round_not_zero sx mx ex s :
  -1074 <= ex -> binary_round prec emax sx mx ex <> S754_zero s.
Proof.
  intros He. unfold binary_round, shl_align.
  set (fe := fexp prec emax (Zpos (digits2_pos mx) + ex)).
  assert (Hfe : -1074 <= fe) by (unfold fe, fexp, SpecFloat.emin; cbn; lia).
  destruct (fe - ex) as [| d | d]; apply binary_round_aux_not_zero; lia.
Qed.

Lemma valid_exponent s m e : valid_binary (S754_finite s m e) = true -> -1074 <= e.
Proof.
  cbn [SpecFloat.valid_binary]. unfold bounded, canonical_mantissa, fexp, SpecFloat.emin.
  intros H. apply andb_true_iff in H as [H _]. apply Z.eqb_eq in H.
  change (3 - emax - prec) with (-1074) in H. lia.
Qed.

Lemma SFadd_not_neg_zero x y :
  valid_binary x = true -> valid_binary y = true ->
  x <> S754_zero true -> SFadd prec emax x y <> S754_zero true.
Proof.
  intros Vx Vy Hx.
  destruct x as [sx | sx | | sx mx ex], y as [sy | sy | | sy my ey]; cbn [SFadd];
    try discriminate; try exact Hx;
    try (destruct sx, sy; try discriminate; exact Hx).
  apply valid_exponent in Vx, Vy.
  unfold binary_normalize.
  destruct (_ + _) as [| m | m]; [discriminate | |]; apply binary_round_not_zero; lia.
Qed.

Lemma add_zero_r (x : float) : Prim2SF x <> S754_zero true -> (x + 0)%float = x.
Proof.
  intros Hx. apply Prim2SF_inj. rewrite add_spec.
  change (Prim2SF 0) with (S754_zero false). unfold SF64add.
  destruct (Prim2SF x) as [[|] | s | | s m e]; try reflexivity. contradiction.
Qed.

Lemma add_add_zero (c y : float) :
  Prim2SF c <> S754_zero true -> (c + y + 0)%float = (c + y)%float.
Proof.
  intros Hc. apply add_zero_r. rewrite add_spec.
  apply SFadd_not_neg_zero; auto using Prim2SF_valid.
Qed.

Local Close Scope Z_scope.

(** ** Finite floats *)

Lemma SFcompare_refl_finite s m e :
  SFcompare (S754_finite s m e) (S754_finite s m e) = Some Eq.
Proof.
  cbn. rewrite Z.compare_refl.
  assert (H : Pos.compare_cont Eq m m = Eq) by apply Pos.compare_refl.
  rewrite H. destruct s; reflexivity.
Qed.

Lemma is_finite_spec x : is_finite x = finite_or_zero (Prim2SF x).
Proof.
  unfold is_finite, is_nan, is_infinity. rewrite !eqb_spec, abs_spec.
  change (Prim2SF infinity) with (S754_infinity false). unfold SFeqb.
  destruct (Prim2SF x) as [s | s | | s m e]; try reflexivity.
  - destruct s; reflexivity.
  - rewrite SFcompare_refl_finite. reflexivity.
Qed.

Lemma round_int_returns x : is_finite x = true <-> exists n, round_int x = Ok n.
Proof.
  rewrite is_finite_spec. unfold round_int.
  destruct (Prim2SF x) as [s | s | | s m e]; cbn [finite_or_zero]; split;
    try (intros _; eexists; reflexivity); try discriminate; try reflexivity;
    intros [n H]; discriminate.
Qed.

(** ** The cases of a tick *)

Section StepFacts.
Variable sin : float -> float.

Lemma math_sin_Ok x r : math_sin sin x = Ok r -> r = sin x.
Proof.
  unfold math_sin. destruct (is_nan (sin x) && negb (is_nan x)); [discriminate |].
  destruct (is_infinity (sin x) && is_finite x); [discriminate |].
  intros H. injection H as H. symmetry. exact H.
Qed.

Lemma simulate_step_cases dt w s :
  let t := (sim_t s + dt)%float in
  (exists e, simulate_step sin dt w s = (Raise e, set_sim_t t s))
  \/ (exists e, round_int (tick_fan sin w t) = Raise e
                /\ simulate_step sin dt w s = (Raise e, pushed_state sin w t s))
  \/ (exists n, round_int (tick_fan sin w t) = Ok n
                /\ simulate_step sin dt w s
                   = (Ok (reading_at sin w (thresholds s) t n),
                      set_log_rows (log_rows s ++ [row_of (reading_at sin w (thresholds s) t n)])
                        (pushed_state sin w t s))).
Proof.
  intros t.
  cbv beta iota delta [simulate_step bind modify gets lift ret].
  cbn [sim_t set_sim_t]. fold t.
  destruct (math_sin sin (0.05 * t)) as [s1 | e] eqn:E1; [| left; eexists; reflexivity].
  destruct (math_sin sin (0.03 * t)) as [s2 | e] eqn:E2; [| left; eexists; reflexivity].
  destruct (math_sin sin (0.02 * t)) as [s3 | e] eqn:E3; [| left; eexists; reflexivity].
  destruct (math_sin sin (0.01 * t)) as [s4 | e] eqn:E4; [| left; eexists; reflexivity].
  apply math_sin_Ok in E1, E2, E3, E4. subst s1 s2 s3 s4.
  right.
  unfold pushed_state, reading_at, tick_temp, tick_humid, tick_o2, tick_co2, tick_fan.
  destruct (round_int _) as [n | e] eqn:E5.
  - right. exists n. split; reflexivity.
  - left. exists e. split; reflexivity.
Qed.
(** A tick returns a reading exactly when no call of [math.sin] raises and
    the fan value is a finite float. *)
Lemma simulate_step_returns dt w s :
  let t := (sim_t s + dt)%float in
  (exists rec s', simulate_step sin dt w s = (Ok rec, s'))
  <-> (exists a b c d,
         math_sin sin (0.05 * t) = Ok a /\ math_sin sin (0.03 * t) = Ok b
         /\ math_sin sin (0.02 * t) = Ok c /\ math_sin sin (0.01 * t) = Ok d)
      /\ is_finite (tick_fan sin w t) = true.
Proof.
  intros t. rewrite round_int_returns.
  cbv beta iota delta [simulate_step bind modify gets lift ret].
  cbn [sim_t set_sim_t]. fold t.
  destruct (math_sin sin (0.05 * t)) as [s1 | e] eqn:E1;
    [| split; [intros (? & ? & ?); discriminate | intros [(? & ? & ? & ? & ? & _) _]; discriminate]].
  destruct (math_sin sin (0.03 * t)) as [s2 | e] eqn:E2;
    [| split; [intros (? & ? & ?); discriminate
              | intros [(? & ? & ? & ? & _ & ? & _) _]; discriminate]].
  destruct (math_sin sin (0.02 * t)) as [s3 | e] eqn:E3;
    [| split; [intros (? & ? & ?); discriminate
              | intros [(? & ? & ? & ? & _ & _ & ? & _) _]; discriminate]].
  destruct (math_sin sin (0.01 * t)) as [s4 | e] eqn:E4;
    [| split; [intros (? & ? & ?); discriminate
              | intros [(? & ? & ? & ? & _ & _ & _ & ?) _]; discriminate]].
  apply math_sin_Ok in E1, E2, E3, E4. subst s1 s2 s3 s4.
  unfold tick_fan.
  destruct (round_int _) as [n | e] eqn:E5.
  - split.
    + intros _. split; [do 4 eexists; repeat split | exists n; reflexivity].
    + intros _. do 2 eexists. reflexivity.
  - split.
    + intros (? & ? & ?). discriminate.
    + intros [_ [n H]]. discriminate.
Qed.

End StepFacts.

(** ** The alarm evaluation *)

Lemma evaluate_alarms_filter r th :
  reading_alarms r th
  = map (alarm_message r) (filter (fun c => outside_range c r th) channels).
Proof.
  unfold reading_alarms, evaluate_alarms, channels, outside_range.
  cbn [filter channel_value channel_min channel_max value_lt value_gt].
  destruct (float_lt (TEMP r) (TEMP_min th) || float_gt (TEMP r) (TEMP_max th));
    destruct (float_lt (HUMID r) (HUMID_min th) || float_gt (HUMID r) (HUMID_max th));
    destruct (float_lt (O2 r) (O2_min th) || float_gt (O2 r) (O2_max th));
    destruct (float_lt (CO2 r) (CO2_min th) || float_gt (CO2 r) (CO2_max th));
    destruct (int_lt_float (FAN r) (FAN_min th) || int_gt_float (FAN r) (FAN_max th));
    reflexivity.
Qed.

Lemma prefix_channel_name c c' x :
  String.prefix (channel_name c ++ " ") (channel_name c' ++ " " ++ x) = channel_eqb c c'.
Proof. destruct c, c'; try reflexivity; destruct x; reflexivity. Qed.

Lemma flagged_messages r c cs :
  flagged c (map (alarm_message r) cs) = existsb (channel_eqb c) cs.
Proof.
  unfold flagged. induction cs as [| c' cs IH]; [reflexivity |].
  cbn [map existsb]. rewrite IH. unfold alarm_message at 1.
  rewrite prefix_channel_name. reflexivity.
Qed.

Lemma flagged_outside r th c :
  flagged c (reading_alarms r th) = outside_range c r th.
Proof.
  rewrite evaluate_alarms_filter, flagged_messages. unfold channels. cbn [filter].
  destruct (outside_range ChTemp r th) eqn:E1, (outside_range ChHumid r th) eqn:E2,
    (outside_range ChO2 r th) eqn:E3, (outside_range ChCO2 r th) eqn:E4,
    (outside_range ChFan r th) eqn:E5; destruct c; cbn; congruence.
Qed.

Lemma boundary_not_outside r th c :
  float_le (channel_min c th) (channel_max c th) = true ->
  value_eq (channel_value c r) (channel_min c th) = true
  \/ value_eq (channel_value c r) (channel_max c th) = true ->
  outside_range c r th = false.
Proof.
  intros Hle Heq. unfold outside_range. apply orb_false_iff.
  destruct c; cbn [channel_value value_eq value_lt value_gt] in *;
    first [apply float_boundary_inside; assumption | apply int_boundary_inside; assumption].
Qed.

(** C1 (as stated, refuted): with the bounds of TEMP swapped (min 38, max
    36), the reading TEMP = 38.0 equals min and is flagged all the same; a
    tick with the manual temperature 38.0 returns such a reading. *)
Lemma boundary_flagged_when_bounds_swapped :
  value_eq (channel_value ChTemp (sample_reading 38.0))
           (channel_min ChTemp swapped_thresholds) = true
  /\ flagged ChTemp (reading_alarms (sample_reading 38.0) swapped_thresholds) = true
  /\ reading_alarms (sample_reading 38.0) swapped_thresholds = ["TEMP 38.0"%string]
  /\ (forall sin rec s',
        simulate_step sin 0.2 hot_env (set_thresholds swapped_thresholds init_state)
        = (Ok rec, s') ->
        value_eq (channel_value ChTemp rec) (channel_min ChTemp swapped_thresholds) = true
        /\ flagged ChTemp (reading_alarms rec swapped_thresholds) = true)
  /\ (exists rec s',
        simulate_step sin_poly 0.2 hot_env (set_thresholds swapped_thresholds init_state)
        = (Ok rec, s')).
Proof.
  split; [vm_compute; reflexivity |]. split; [vm_compute; reflexivity |].
  split; [vm_compute; reflexivity |]. split.
  - intros sin rec s' H.
    destruct (simulate_step_cases sin 0.2 hot_env
                (set_thresholds swapped_thresholds init_state))
      as [[e He] | [[e [_ He]] | [n [_ He]]]]; rewrite He in H; try discriminate.
    injection H as Hr _. subst rec. rewrite flagged_outside.
    unfold outside_range, reading_at.
    cbn [channel_value channel_min channel_max TEMP value_eq value_lt value_gt].
    assert (HT : forall t, tick_temp sin hot_env t = 38.0%float) by reflexivity.
    rewrite HT. split; vm_compute; reflexivity.
  - eexists. eexists. vm_compute. reflexivity.
Qed.

(** C1 (amended): for every reading, every threshold configuration and each
    of the five channels, the alarm evaluation flags the channel if and only
    if the value is below min or above max; and when min <= max for that
    channel, a value equal to min or to max is not flagged. *)
Theorem alarm_flag_iff_outside (r : reading) (th : thresholds_t) (c : channel) :
  (flagged c (reading_alarms r th) = true
   <-> value_lt (channel_value c r) (channel_min c th) = true
       \/ value_gt (channel_value c r) (channel_max c th) = true)
  /\ (float_le (channel_min c th) (channel_max c th) = true ->
      value_eq (channel_value c r) (channel_min c th) = true
      \/ value_eq (channel_value c r) (channel_max c th) = true ->
      flagged c (reading_alarms r th) = false).
Proof.
  split.
  - rewrite flagged_outside. unfold outside_range. apply orb_true_iff.
  - intros Hle Heq. rewrite flagged_outside. apply boundary_not_outside; assumption.
Qed.

Lemma alarm_flag_iff_outside_witness :
  flagged ChTemp (reading_alarms (sample_reading 36.0) default_thresholds) = false.
Proof.
  apply (proj2 (alarm_flag_iff_outside (sample_reading 36.0) default_thresholds ChTemp)).
  - vm_compute. reflexivity.
  - left. vm_compute. reflexivity.
Defined.

(** ** The tick *)

Section StepClaims.
Variable sin : float -> float.

Lemma simulate_step_Ok dt w s rec s' :
  simulate_step sin dt w s = (Ok rec, s') ->
  exists n,
    round_int (tick_fan sin w (sim_t s + dt)) = Ok n
    /\ rec = reading_at sin w (thresholds s) (sim_t s + dt) n
    /\ s' = set_log_rows (log_rows s ++ [row_of rec]) (pushed_state sin w (sim_t s + dt) s).
Proof.
  intros H.
  destruct (simulate_step_cases sin dt w s) as [[e He] | [[e [_ He]] | [n [Hn He]]]];
    rewrite He in H; try discriminate.
  injection H as Hr Hs. exists n. subst rec s'. repeat split. exact Hn.
Qed.

Lemma float_ge_true_override_temp w t :
  float_ge (manual_temp w) 0 = true -> tick_temp sin w t = manual_temp w.
Proof. intros H. unfold tick_temp. rewrite H. reflexivity. Qed.

Lemma float_ge_true_override_humid w t :
  float_ge (manual_humid w) 0 = true -> tick_humid sin w t = manual_humid w.
Proof. intros H. unfold tick_humid. rewrite H. reflexivity. Qed.

End StepClaims.

Lemma float_neq (x y : float) : Prim2SF x <> Prim2SF y -> x <> y.
Proof. intros H E. apply H. rewrite E. reflexivity. Qed.

(** C2 (as stated, refuted): with the manual temperature 37.123 the tick
    returns TEMP = 37.12, whatever the sine; with [sin_poly] the tick does
    return a reading. *)
Lemma manual_temp_comes_back_rounded :
  float_ge (manual_temp override_env) 0 = true
  /\ (forall sin rec s',
        simulate_step sin 0.2 override_env init_state = (Ok rec, s') ->
        TEMP rec = 37.12%float /\ TEMP rec <> manual_temp override_env)
  /\ (exists rec s', simulate_step sin_poly 0.2 override_env init_state = (Ok rec, s')).
Proof.
  split; [vm_compute; reflexivity |]. split.
  - intros sin rec s' H. apply simulate_step_Ok in H as (n & _ & Hr & _).
    subst rec. unfold reading_at. cbn [TEMP].
    rewrite float_ge_true_override_temp by (vm_compute; reflexivity).
    split; [vm_compute; reflexivity |].
    apply float_neq. vm_compute. discriminate.
  - eexists. eexists. vm_compute. reflexivity.
Qed.

(** C2 (amended): for every call with [manual_temp >= 0] the returned TEMP is
    [round(manual_temp, 2)], and for every call with [manual_humid >= 0] the
    returned HUMID is [round(manual_humid, 1)], whatever the simulated time,
    the noise flag and the random numbers. *)
Theorem manual_override_rounded
  (sin : float -> float) (dt : float) (w : tick_env) (s s' : session_state) (rec : reading) :
  simulate_step sin dt w s = (Ok rec, s') ->
  (float_ge (manual_temp w) 0 = true -> TEMP rec = round_ndigits (manual_temp w) 2)
  /\ (float_ge (manual_humid w) 0 = true -> HUMID rec = round_ndigits (manual_humid w) 1).
Proof.
  intros H. apply simulate_step_Ok in H as (n & _ & Hr & _). subst rec.
  unfold reading_at. cbn [TEMP HUMID]. split; intros Hge.
  - rewrite float_ge_true_override_temp by exact Hge. reflexivity.
  - rewrite float_ge_true_override_humid by exact Hge. reflexivity.
Qed.

Lemma manual_override_rounded_witness :
  TEMP (the_reading (fst (simulate_step sin_poly 0.2 override_env init_state)))
  = round_ndigits 37.123 2.
Proof.
  refine (proj1 (manual_override_rounded sin_poly 0.2 override_env init_state
                   (snd (simulate_step sin_poly 0.2 override_env init_state))
                   (the_reading (fst (simulate_step sin_poly 0.2 override_env init_state)))
                   _) _).
  - vm_compute. reflexivity.
  - vm_compute. reflexivity.
Defined.

(** C3 (as stated, refuted): with the manual temperature 37.123 the tick
    appends 37.123 to the temperature buffer, and the reading's TEMP is 37.12. *)
Lemma buffer_gets_unrounded_value :
  (forall sin rec s',
      simulate_step sin 0.2 override_env init_state = (Ok rec, s') ->
      last (Deque.items (temp_buffer s')) 0%float = 37.123%float
      /\ TEMP rec = 37.12%float
      /\ last (Deque.items (temp_buffer s')) 0%float <> TEMP rec)
  /\ (exists rec s', simulate_step sin_poly 0.2 override_env init_state = (Ok rec, s')).
Proof.
  split.
  - intros sin rec s' H. apply simulate_step_Ok in H as (n & _ & Hr & Hs).
    assert (HT : TEMP rec = 37.12%float).
    { subst rec. unfold reading_at. cbn [TEMP].
      rewrite float_ge_true_override_temp by (vm_compute; reflexivity).
      vm_compute. reflexivity. }
    assert (HL : last (Deque.items (temp_buffer s')) 0%float = 37.123%float).
    { subst s'. unfold pushed_state. cbn [temp_buffer set_log_rows push_buffers].
      rewrite float_ge_true_override_temp by (vm_compute; reflexivity).
      vm_compute. reflexivity. }
    rewrite HL, HT. repeat split. apply float_neq. vm_compute. discriminate.
  - eexists. eexists. vm_compute. reflexivity.
Qed.

(** C3 (amended): a tick that returns a reading appends the values of temp,
    humid, o2 and co2 as they are before rounding to the four trend buffers
    (deques of maximal length 300; a full one drops its oldest item), the
    reading's TEMP, HUMID, O2 and CO2 being those values rounded to 2, 1, 2
    and 3 decimals; the fan speed has no buffer; and the tick appends the full
    row to the log. *)
Theorem step_pushes_unrounded_values
  (sin : float -> float) (dt : float) (w : tick_env) (s s' : session_state) (rec : reading) :
  simulate_step sin dt w s = (Ok rec, s') ->
  let t := (sim_t s + dt)%float in
  (temp_buffer s' = Deque.append (temp_buffer s) (tick_temp sin w t)
   /\ humid_buffer s' = Deque.append (humid_buffer s) (tick_humid sin w t)
   /\ o2_buffer s' = Deque.append (o2_buffer s) (tick_o2 sin w t)
   /\ co2_buffer s' = Deque.append (co2_buffer s) (tick_co2 sin w t))
  /\ (TEMP rec = round_ndigits (tick_temp sin w t) 2
      /\ HUMID rec = round_ndigits (tick_humid sin w t) 1
      /\ O2 rec = round_ndigits (tick_o2 sin w t) 2
      /\ CO2 rec = round_ndigits (tick_co2 sin w t) 3)
  /\ log_rows s' = log_rows s ++ [row_of rec]
  /\ (forall d x, full_deque 300 d ->
        Deque.maxlen (Deque.append d x) = 300%nat
        /\ Deque.items (Deque.append d x) = tl (Deque.items d) ++ [x]).
Proof.
  intros H t. apply simulate_step_Ok in H as (n & _ & Hr & Hs). fold t in Hr, Hs.
  split; [subst s'; repeat split |]. split; [subst rec; repeat split |].
  split; [subst s'; reflexivity |].
  intros d x [Hm Hl]. split; [exact Hm |].
  unfold Deque.append. cbn [Deque.items]. rewrite Hm, length_app, Hl. cbn [List.length Nat.add].
  replace (300 <? 300 + 1)%nat with true by reflexivity.
  destruct (Deque.items d); [discriminate | reflexivity].
Qed.

Lemma step_pushes_unrounded_values_witness :
  log_rows (snd (simulate_step sin_poly 0.2 override_env init_state))
  = log_rows init_state
    ++ [row_of (the_reading (fst (simulate_step sin_poly 0.2 override_env init_state)))].
Proof.
  refine (proj1 (proj2 (proj2
            (step_pushes_unrounded_values sin_poly 0.2 override_env init_state
               (snd (simulate_step sin_poly 0.2 override_env init_state))
               (the_reading (fst (simulate_step sin_poly 0.2 override_env init_state)))
               _)))).
  vm_compute. reflexivity.
Defined.

Lemma sf_den_pos e : (0 < sf_den e)%Z.
Proof.
  unfold sf_den. destruct (0 <=? e)%Z eqn:E; [lia |].
  apply Z.pow_pos_nonneg; lia.
Qed.

Lemma round_half_even_nearest p q :
  (0 < q)%Z -> (2 * Z.abs (round_half_even p q * q - p) <= q)%Z.
Proof.
  intros Hq. unfold round_half_even.
  pose proof (Z_div_mod p q ltac:(lia)) as H.
  destruct (Z.div_eucl p q) as [d r]. destruct H as [Hp Hr].
  destruct (Z.compare_spec (2 * r) q) as [E | E | E]; [destruct (Z.even d) | |]; nia.
Qed.

Lemma round_int_nearest x n : round_int x = Ok n -> nearest_integer x n.
Proof.
  unfold round_int, nearest_integer.
  destruct (Prim2SF x) as [s | s | | s m e]; try discriminate; intros H; injection H as H.
  - symmetry. exact H.
  - subst n. pose proof (round_half_even_nearest (sf_num m e) (sf_den e) (sf_den_pos e)).
    destruct s; cbn [cond_Zopp]; lia.
Qed.

Section Noiseless.
Variable sin : float -> float.

Lemma noiseless_values w t :
  noiseless w ->
  tick_temp sin w t = (37.0 + 0.3 * sin (0.05 * t))%float
  /\ tick_humid sin w t = (60 + 5 * sin (0.03 * t))%float
  /\ tick_o2 sin w t = (21 + 0.5 * sin (0.02 * t))%float
  /\ tick_co2 sin w t = (0.04 + 0.01 * sin (0.01 * t))%float
  /\ tick_fan sin w t = (50 + 10 * sin (0.02 * t))%float.
Proof.
  intros (Hn & Ht & Hh).
  apply float_lt_not_ge in Ht, Hh.
  unfold tick_temp, tick_humid, tick_o2, tick_co2, tick_fan. rewrite Hn, Ht, Hh.
  repeat split; apply add_add_zero; vm_compute; discriminate.
Qed.

Lemma noiseless_reading dt w s s' rec :
  noiseless w -> simulate_step sin dt w s = (Ok rec, s') ->
  (TEMP rec, HUMID rec, O2 rec, CO2 rec, Ok (FAN rec)) = sinusoid_reading sin (sim_t s + dt).
Proof.
  intros Hw H. apply simulate_step_Ok in H as (n & Hn & Hr & _).
  destruct (noiseless_values w (sim_t s + dt) Hw) as (HT & HH & HO & HC & HF).
  subst rec. unfold reading_at, sinusoid_reading. cbn [TEMP HUMID O2 CO2 FAN].
  rewrite HT, HH, HO, HC. rewrite HF in Hn. rewrite Hn. reflexivity.
Qed.

End Noiseless.

(** C4: with noise off and both manual overrides negative, the reading of a
    tick is the stated function of the simulated time [t]: TEMP, HUMID, O2 and
    CO2 are the sinusoids rounded to 2, 1, 2 and 3 decimals, FAN is an integer
    nearest to [50 + 10 sin(0.02 t)]; and two such ticks at the same [t] return
    the same five numbers. *)
Theorem noiseless_reading_is_sinusoid
  (sin : float -> float) (dt : float) (w : tick_env) (s s' : session_state) (rec : reading) :
  noiseless w ->
  simulate_step sin dt w s = (Ok rec, s') ->
  let t := (sim_t s + dt)%float in
  (TEMP rec, HUMID rec, O2 rec, CO2 rec, Ok (FAN rec)) = sinusoid_reading sin t
  /\ nearest_integer (50 + 10 * sin (0.02 * t))%float (FAN rec)
  /\ (forall dt2 w2 s2 s2' rec2,
        noiseless w2 ->
        simulate_step sin dt2 w2 s2 = (Ok rec2, s2') ->
        (sim_t s2 + dt2)%float = t ->
        numeric_fields rec2 = numeric_fields rec).
Proof.
  intros Hw H t. pose proof (noiseless_reading sin dt w s s' rec Hw H) as E. fold t in E.
  split; [exact E |]. split.
  - apply round_int_nearest. unfold sinusoid_reading in E. congruence.
  - intros dt2 w2 s2 s2' rec2 Hw2 H2 Ht.
    pose proof (noiseless_reading sin dt2 w2 s2 s2' rec2 Hw2 H2) as E2.
    rewrite Ht, <- E in E2. unfold numeric_fields. congruence.
Qed.

Lemma noiseless_reading_is_sinusoid_witness :
  (TEMP (the_reading (fst (simulate_step sin_poly 0.2 quiet_env init_state))),
   HUMID (the_reading (fst (simulate_step sin_poly 0.2 quiet_env init_state))),
   O2 (the_reading (fst (simulate_step sin_poly 0.2 quiet_env init_state))),
   CO2 (the_reading (fst (simulate_step sin_poly 0.2 quiet_env init_state))),
   Ok (FAN (the_reading (fst (simulate_step sin_poly 0.2 quiet_env init_state)))))
  = sinusoid_reading sin_poly (sim_t init_state + 0.2).
Proof.
  refine (proj1 (noiseless_reading_is_sinusoid sin_poly 0.2 quiet_env init_state
                   (snd (simulate_step sin_poly 0.2 quiet_env init_state))
                   (the_reading (fst (simulate_step sin_poly 0.2 quiet_env init_state)))
                   _ _)).
  - repeat split; vm_compute; reflexivity.
  - vm_compute. reflexivity.
Defined.

Lemma alarm_text_concat l : alarm_text l = String.concat "; " l.
Proof. destruct l; reflexivity. Qed.

Lemma reading_at_alarms sin w th t n :
  alarm (reading_at sin w th t n)
  = alarm_text (reading_alarms (reading_at sin w th t n) th).
Proof. reflexivity. Qed.

(** C5: for every reading a tick returns, the violation messages come in the
    order TEMP, HUMID, O2, CO2, FAN; the alarm field is that list joined with
    "; "; and with no channel out of range it is the empty string. *)
Theorem alarm_order_and_join
  (sin : float -> float) (dt : float) (w : tick_env) (s s' : session_state) (rec : reading) :
  simulate_step sin dt w s = (Ok rec, s') ->
  let violated := filter (fun c => outside_range c rec (thresholds s))
                    [ChTemp; ChHumid; ChO2; ChCO2; ChFan] in
  reading_alarms rec (thresholds s) = map (alarm_message rec) violated
  /\ alarm rec = String.concat "; " (map (alarm_message rec) violated)
  /\ (violated = [] -> alarm rec = ""%string).
Proof.
  intros H violated. apply simulate_step_Ok in H as (n & _ & Hr & _).
  assert (Ha : alarm rec = alarm_text (reading_alarms rec (thresholds s)))
    by (subst rec; apply reading_at_alarms).
  pose proof (evaluate_alarms_filter rec (thresholds s)) as Hf.
  fold violated in Hf. unfold channels in Hf. fold violated in Hf.
  split; [exact Hf |]. rewrite Ha, Hf, alarm_text_concat.
  split; [reflexivity |]. intros Hv. rewrite Hv. reflexivity.
Qed.

Lemma alarm_order_and_join_witness :
  alarm (the_reading (fst (simulate_step sin_poly 0.2 override_env
                             (set_thresholds swapped_thresholds init_state))))
  = String.concat "; "
      (map (alarm_message
              (the_reading (fst (simulate_step sin_poly 0.2 override_env
                                   (set_thresholds swapped_thresholds init_state)))))
         (filter (fun c =>
                    outside_range c
                      (the_reading (fst (simulate_step sin_poly 0.2 override_env
                                           (set_thresholds swapped_thresholds init_state))))
                      swapped_thresholds)
            [ChTemp; ChHumid; ChO2; ChCO2; ChFan])).
Proof.
  refine (proj1 (proj2 (alarm_order_and_join sin_poly 0.2 override_env
                   (set_thresholds swapped_thresholds init_state)
                   (snd (simulate_step sin_poly 0.2 override_env
                           (set_thresholds swapped_thresholds init_state)))
                   (the_reading (fst (simulate_step sin_poly 0.2 override_env
                                        (set_thresholds swapped_thresholds init_state))))
                   _))).
  vm_compute. reflexivity.
Defined.

(** C6: a tick run from two session states that differ in [alarm_paused]
    alone returns the same reading (alarm string included) and leaves states
    that differ in that flag alone, so the row appended to the log is the
    same; the flag decides only whether a non-empty alarm is shown as an error
    or as a warning. *)
Theorem alarm_paused_noninterference
  (sin : float -> float) (dt : float) (w : tick_env) (s : session_state) (b : bool) :
  simulate_step sin dt w (set_alarm_paused b s)
  = (fst (simulate_step sin dt w s), set_alarm_paused b (snd (simulate_step sin dt w s)))
  /\ log_rows (snd (simulate_step sin dt w (set_alarm_paused b s)))
     = log_rows (snd (simulate_step sin dt w s))
  /\ (forall rec : reading,
        alarm_status rec b
        = match alarm rec with
          | EmptyString => UiSuccess "All parameters normal"
          | String _ _ =>
              if b then UiWarning ("Alarm paused: " ++ alarm rec) else UiError (alarm rec)
          end).
Proof.
  assert (E : simulate_step sin dt w (set_alarm_paused b s)
              = (fst (simulate_step sin dt w s),
                 set_alarm_paused b (snd (simulate_step sin dt w s)))).
  { cbv beta iota delta [simulate_step bind modify gets lift ret].
    cbn [sim_t set_sim_t set_alarm_paused thresholds].
    set (t := (sim_t s + dt)%float).
    destruct (math_sin sin (0.05 * t)); [| reflexivity].
    destruct (math_sin sin (0.03 * t)); [| reflexivity].
    destruct (math_sin sin (0.02 * t)); [| reflexivity].
    destruct (math_sin sin (0.01 * t)); [| reflexivity].
    destruct (round_int _); reflexivity. }
  split; [exact E |]. split; [rewrite E; reflexivity |].
  intros rec. unfold alarm_status. destruct (alarm rec), b; reflexivity.
Qed.

(** ** The log handlers *)

(** C7: the clear-log handler leaves the log empty and every trend buffer as
    it was (and so the rest of the session state). *)
Theorem clear_log_keeps_buffers (s : session_state) :
  log_rows (snd (clear_log s)) = []
  /\ temp_buffer (snd (clear_log s)) = temp_buffer s
  /\ humid_buffer (snd (clear_log s)) = humid_buffer s
  /\ o2_buffer (snd (clear_log s)) = o2_buffer s
  /\ co2_buffer (snd (clear_log s)) = co2_buffer s
  /\ sim_t (snd (clear_log s)) = sim_t s
  /\ running (snd (clear_log s)) = running s
  /\ alarm_paused (snd (clear_log s)) = alarm_paused s
  /\ thresholds (snd (clear_log s)) = thresholds s.
Proof. repeat split. Qed.

(** C8: with an empty log the export handler writes no file, shows the
    informational message and leaves the session state as it was; with a
    non-empty log it hands every logged row to the CSV writer under the header
    timestamp,TEMP,HUMID,O2,CO2,FAN,alarm. *)
Theorem save_log_export (stamp : string) (s : session_state) :
  (log_rows s = [] ->
   save_log stamp s = ([UiInfo "No data to save yet."], s)
   /\ existsb writes_file (fst (save_log stamp s)) = false)
  /\ (log_rows s <> [] ->
      save_log stamp s
      = ([UiToCsv ("incubator_log_" ++ stamp ++ ".csv")
            ["timestamp"; "TEMP"; "HUMID"; "O2"; "CO2"; "FAN"; "alarm"]%string (log_rows s);
          UiSuccess ("Saved log to " ++ "incubator_log_" ++ stamp ++ ".csv")], s)).
Proof.
  unfold save_log. split; intros H.
  - rewrite H. split; reflexivity.
  - destruct (log_rows s); [contradiction | reflexivity].
Qed.

Lemma save_log_export_witness :
  save_log "20240501_120000" init_state = ([UiInfo "No data to save yet."], init_state)
  /\ existsb writes_file (fst (save_log "20240501_120000" init_state)) = false.
Proof.
  apply (proj1 (save_log_export "20240501_120000" init_state)). reflexivity.
Defined.

(** ** Runs of ticks and the trend buffers *)

Section Runs.
Variable sin : float -> float.

Lemma tick_times_length ticks t0 : List.length (tick_times ticks t0) = List.length ticks.
Proof.
  revert t0. induction ticks as [| [dt w] ticks IH]; intros t0; cbn [tick_times List.length];
    [reflexivity | rewrite IH; reflexivity].
Qed.

Lemma run_ticks_Ok ticks : forall s recs s',
  run_ticks sin ticks s = (Ok recs, s') ->
  List.length recs = List.length ticks
  /\ temp_buffer s' = fold_left Deque.append (pushed_temps sin ticks (sim_t s)) (temp_buffer s)
  /\ humid_buffer s' = fold_left Deque.append (pushed_humids sin ticks (sim_t s)) (humid_buffer s)
  /\ o2_buffer s' = fold_left Deque.append (pushed_o2s sin ticks (sim_t s)) (o2_buffer s)
  /\ co2_buffer s' = fold_left Deque.append (pushed_co2s sin ticks (sim_t s)) (co2_buffer s)
  /\ map TEMP recs = map (fun x => round_ndigits x 2) (pushed_temps sin ticks (sim_t s)).
Proof.
  induction ticks as [| [dt w] ticks IH]; intros s recs s' H.
  - cbn in H. injection H as Hr Hs. subst recs s'. repeat split.
  - cbn [run_ticks] in H. unfold bind at 1 in H.
    destruct (simulate_step sin dt w s) as [[rec | e] s1] eqn:E1; [| discriminate].
    unfold bind at 1 in H.
    destruct (run_ticks sin ticks s1) as [[rs | e] s2] eqn:E2; [| discriminate].
    cbn in H. injection H as Hr Hs. subst recs s2.
    apply simulate_step_Ok in E1 as (n & _ & Hrec & Hs1).
    assert (Ht : sim_t s1 = (sim_t s + dt)%float) by (subst s1; reflexivity).
    destruct (IH s1 rs s' E2) as (Hl & HT & HH & HO & HC & HR).
    rewrite Ht in HT, HH, HO, HC, HR.
    unfold pushed_temps, pushed_humids, pushed_o2s, pushed_co2s in *.
    cbn [tick_times map fold_left List.length fst snd].
    rewrite HT, HH, HO, HC, HR, Hl. subst s1 rec. repeat split.
Qed.

Lemma full_fold_append d xs :
  full_deque 300 d ->
  Deque.items (fold_left Deque.append xs d) = lastn 300 (Deque.items d ++ xs).
Proof.
  intros [Hm Hl]. destruct (fold_append d xs) as [_ Hi]; [lia |].
  rewrite Hi, Hm. reflexivity.
Qed.

End Runs.

(** C9: once a run of more than 300 ticks has returned its readings, each of
    the four trend buffers holds the 300 values appended last for its channel,
    oldest first. *)
Theorem buffers_hold_last_300
  (sin : float -> float) (ticks : list (float * tick_env)) (s s' : session_state)
  (recs : list reading) :
  buffers_full 300 s ->
  run_ticks sin ticks s = (Ok recs, s') ->
  (300 < List.length ticks)%nat ->
  List.length recs = List.length ticks
  /\ Deque.items (temp_buffer s') = lastn 300 (pushed_temps sin ticks (sim_t s))
  /\ Deque.items (humid_buffer s') = lastn 300 (pushed_humids sin ticks (sim_t s))
  /\ Deque.items (o2_buffer s') = lastn 300 (pushed_o2s sin ticks (sim_t s))
  /\ Deque.items (co2_buffer s') = lastn 300 (pushed_co2s sin ticks (sim_t s)).
Proof.
  intros (FT & FH & FO & FC) H Hlen.
  apply run_ticks_Ok in H as (Hl & HT & HH & HO & HC & _).
  split; [exact Hl |].
  rewrite HT, HH, HO, HC, !full_fold_append by assumption.
  unfold pushed_temps, pushed_humids, pushed_o2s, pushed_co2s.
  repeat split; apply lastn_app_ge; rewrite length_map, tick_times_length; lia.
Qed.

Lemma buffers_hold_last_300_witness :
  Deque.items (temp_buffer (snd (run_ticks sin_poly (repeat (0.2%float, default_env) 301)
                                   init_state)))
  = lastn 300 (pushed_temps sin_poly (repeat (0.2%float, default_env) 301) (sim_t init_state)).
Proof.
  refine (proj1 (proj2 (buffers_hold_last_300 sin_poly (repeat (0.2%float, default_env) 301)
            init_state
            (snd (run_ticks sin_poly (repeat (0.2%float, default_env) 301) init_state))
            (the_readings (fst (run_ticks sin_poly (repeat (0.2%float, default_env) 301)
                                  init_state)))
            _ _ _))).
  - repeat split; vm_compute; reflexivity.
  - vm_compute. reflexivity.
  - vm_compute. lia.
Defined.

Lemma init_buffers :
  Deque.items (temp_buffer init_state) = repeat 37.0%float 300
  /\ Deque.items (humid_buffer init_state) = repeat 60.0%float 300
  /\ Deque.items (o2_buffer init_state) = repeat 21.0%float 300
  /\ Deque.items (co2_buffer init_state) = repeat 0.04%float 300.
Proof. cbn [init_state temp_buffer humid_buffer o2_buffer co2_buffer]. repeat split; apply make_repeat. Qed.

Lemma init_buffers_full : buffers_full 300 init_state.
Proof.
  unfold buffers_full, full_deque. cbn [init_state temp_buffer humid_buffer o2_buffer co2_buffer].
  repeat split; first [apply make_repeat | rewrite (proj1 (make_repeat _ _)); apply repeat_length].
Qed.

Section Invariant.
Variable sin : float -> float.

Lemma pushed_state_full w t s : buffers_full 300 s -> buffers_full 300 (pushed_state sin w t s).
Proof.
  intros (FT & FH & FO & FC). unfold pushed_state, buffers_full.
  cbn [push_buffers set_sim_t temp_buffer humid_buffer o2_buffer co2_buffer].
  repeat split; apply append_full; assumption.
Qed.

Lemma simulate_step_full dt w s :
  buffers_full 300 s -> buffers_full 300 (snd (simulate_step sin dt w s)).
Proof.
  intros F.
  destruct (simulate_step_cases sin dt w s) as [[e He] | [[e [_ He]] | [n [_ He]]]];
    rewrite He; cbn [snd].
  - exact F.
  - apply pushed_state_full. exact F.
  - apply (pushed_state_full w _ s F).
Qed.

Lemma main_loop_full u s :
  buffers_full 300 s ->
  buffers_full 300 (snd (main_loop sin u s)) /\ Forall (plot_has 300) (fst (main_loop sin u s)).
Proof.
  intros F. unfold main_loop.
  pose proof (simulate_step_full (float_of_int (sim_speed u) / 1000.0) (env u) s F) as F1.
  destruct (simulate_step sin _ (env u) s) as [[rec | e] s1]; cbn [snd] in F1.
  - assert (HP : Forall (plot_has 300)
                   (plot_trends s1
                      ++ [alarm_status rec (alarm_paused s1);
                          UiWrite ("Total log rows: "
                                   ++ int_str (Z.of_nat (List.length (log_rows s1))))])).
    { destruct F1 as ((_ & HT) & (_ & HH) & (_ & HO) & (_ & HC)).
      apply Forall_app. split.
      - unfold plot_trends. repeat constructor; assumption.
      - repeat constructor. unfold alarm_status. destruct (alarm rec), (alarm_paused s1); exact I. }
    destruct (clear_log_btn u); cbn [clear_log fst snd].
    + split; [exact F1 |]. apply Forall_app. split; [exact HP | repeat constructor].
    + split; [exact F1 | exact HP].
  - split; [exact F1 | repeat constructor].
Qed.

Lemma script_run_full u s :
  buffers_full 300 s ->
  buffers_full 300 (snd (script_run sin u s)) /\ Forall (plot_has 300) (fst (script_run sin u s)).
Proof.
  intros F. unfold script_run.
  set (s0 := set_thresholds (thr_inputs u) s).
  set (s1 := if start_btn u then set_running true s0 else s0).
  set (s2 := if stop_btn u then set_running false s1 else s1).
  set (s3 := if pause_alarm_btn u then set_alarm_paused (negb (alarm_paused s2)) s2 else s2).
  assert (F3 : buffers_full 300 s3).
  { unfold s3, s2, s1, s0.
    destruct (start_btn u), (stop_btn u), (pause_alarm_btn u); exact F. }
  assert (HS : Forall (plot_has 300) (show_status s0)).
  { unfold show_status. repeat constructor. destruct (alarm_paused s0); exact I. }
  destruct (if save_log_btn u then save_log (now_strftime u) s3 else ([], s3))
    as [ev1 s4] eqn:E4.
  assert (F4 : buffers_full 300 s4 /\ Forall (plot_has 300) ev1).
  { destruct (save_log_btn u).
    - unfold save_log in E4. destruct (log_rows s3); injection E4 as <- <-;
        (split; [exact F3 | repeat constructor]).
    - injection E4 as <- <-. split; [exact F3 | constructor]. }
  destruct F4 as [F4 H1].
  destruct (if running s4 then main_loop sin u s4 else ([], s4)) as [ev2 s5] eqn:E5.
  assert (F5 : buffers_full 300 s5 /\ Forall (plot_has 300) ev2).
  { destruct (running s4).
    - pose proof (main_loop_full u s4 F4) as [A B]. rewrite E5 in A, B. split; assumption.
    - injection E5 as <- <-. split; [exact F4 | constructor]. }
  destruct F5 as [F5 H2]. cbn [fst snd].
  split; [exact F5 |]. repeat (apply Forall_app; split); assumption.
Qed.

Lemma session_full us : forall s, buffers_full 300 s -> buffers_full 300 (session sin us s).
Proof.
  induction us as [| u us IH]; intros s F; cbn [session]; [exact F |].
  apply IH. apply script_run_full. exact F.
Qed.

End Invariant.

Lemma skipn_repeat {A} (x : A) n k : skipn k (repeat x n) = repeat x (n - k).
Proof.
  revert k. induction n as [| n IH]; intros [| k]; cbn; try reflexivity. apply IH.
Qed.

(** C10: a new session starts with each of the four trend buffers holding 300
    copies of its channel's baseline (37.0, 60.0, 21.0, 0.04); every tick and
    every run of the script keeps each buffer at 300 items, so every plotted
    slice has 300 values; and up to 300 ticks into a session the oldest of
    them are still the baseline values no tick ever produced. *)
Theorem buffers_always_full :
  (Deque.items (temp_buffer init_state) = repeat 37.0%float 300
   /\ Deque.items (humid_buffer init_state) = repeat 60.0%float 300
   /\ Deque.items (o2_buffer init_state) = repeat 21.0%float 300
   /\ Deque.items (co2_buffer init_state) = repeat 0.04%float 300)
  /\ (forall sin dt w s,
        buffers_full 300 s -> buffers_full 300 (snd (simulate_step sin dt w s)))
  /\ (forall sin u s,
        buffers_full 300 s -> buffers_full 300 (snd (script_run sin u s)))
  /\ (forall sin us, buffers_full 300 (session sin us init_state))
  /\ (forall sin us u,
        Forall (plot_has 300) (fst (script_run sin u (session sin us init_state))))
  /\ (forall sin ticks recs s',
        run_ticks sin ticks init_state = (Ok recs, s') ->
        (List.length ticks <= 300)%nat ->
        Deque.items (temp_buffer s')
        = repeat 37.0%float (300 - List.length ticks)
            ++ pushed_temps sin ticks (sim_t init_state)).
Proof.
  split; [exact init_buffers |].
  split; [intros; apply simulate_step_full; assumption |].
  split; [intros; apply script_run_full; assumption |].
  split; [intros; apply session_full, init_buffers_full |].
  split; [intros; apply script_run_full, session_full, init_buffers_full |].
  intros sin ticks recs s' H Hlen.
  apply run_ticks_Ok in H as (_ & HT & _).
  rewrite HT, full_fold_append by apply init_buffers_full.
  rewrite (proj1 init_buffers). unfold lastn.
  assert (Hp : List.length (pushed_temps sin ticks (sim_t init_state)) = List.length ticks)
    by (unfold pushed_temps; rewrite length_map; apply tick_times_length).
  rewrite length_app, repeat_length, Hp, skipn_app, repeat_length, skipn_repeat.
  replace (300 + List.length ticks - 300 - 300)%nat with 0%nat by lia.
  cbn [skipn]. f_equal. f_equal. lia.
Qed.

Lemma buffers_always_full_witness :
  Deque.items (temp_buffer (snd (run_ticks sin_poly [(0.2%float, default_env)] init_state)))
  = repeat 37.0%float (300 - 1)
      ++ pushed_temps sin_poly [(0.2%float, default_env)] (sim_t init_state).
Proof.
  refine (proj2 (proj2 (proj2 (proj2 (proj2 buffers_always_full)))) sin_poly
            [(0.2%float, default_env)]
            (the_readings (fst (run_ticks sin_poly [(0.2%float, default_env)] init_state)))
            (snd (run_ticks sin_poly [(0.2%float, default_env)] init_state)) _ _).
  - vm_compute. reflexivity.
  - cbn. lia.
Defined.

(** * Further properties of the script *)

(** ** The vitals panel on known values *)

Example clamp_samples :
  clamp 125 0 100 = 100%float /\ clamp (-3) 0 100 = 0%float
  /\ clamp 42.5 0 100 = 42.5%float /\ clamp nan 0 100 = 100%float.
Proof. repeat split; vm_compute; reflexivity. Qed.

Example percent_in_range_samples :
  percent_in_range (VFloat 37) 36 38 = Returns (VFloat 50)
  /\ percent_in_range (VInt 50) 0 100 = Returns (VFloat 50)
  /\ percent_in_range (VFloat 37) 36 36 = Returns (VInt 100)
  /\ percent_in_range (VInt (2 ^ 1024)) 0 100 = Throws (ConversionError OverflowError).
Proof. repeat split; vm_compute; reflexivity. Qed.

Example show_metric_sample :
  show_metric "TEMP" (VFloat 38.5) 36 38 " C"
  = ([Markdown "**TEMP**: <span style='color:red'>38.5 C</span>"; Progress 100], None).
Proof. vm_compute. reflexivity. Qed.

(** ** More on the comparisons of floats *)

Lemma SFcompare_refl a : a <> S754_nan -> SFcompare a a = Some Eq.
Proof.
  destruct a as [s | s | | s m e]; intros H; try reflexivity.
  - destruct s; reflexivity.
  - contradiction.
  - apply SFcompare_refl_finite.
Qed.

Lemma SFcompare_nan_l a b c : SFcompare a b = Some c -> a <> S754_nan /\ b <> S754_nan.
Proof. destruct a, b; cbn; intros H; split; discriminate. Qed.

Lemma is_nan_spec x : is_nan x = true <-> Prim2SF x = S754_nan.
Proof.
  unfold is_nan. rewrite eqb_spec. unfold SFeqb. split.
  - intros H. destruct (Prim2SF x) as [s | s | | s m e] eqn:E; try reflexivity;
      rewrite SFcompare_refl in H by discriminate; discriminate.
  - intros ->. reflexivity.
Qed.

Lemma float_lt_nan_l x y : is_nan x = true -> float_lt x y = false.
Proof.
  intros H. apply is_nan_spec in H. unfold float_lt. rewrite ltb_spec, H. reflexivity.
Qed.

Lemma float_lt_nan_r x y : is_nan y = true -> float_lt x y = false.
Proof.
  intros H. apply is_nan_spec in H. unfold float_lt. rewrite ltb_spec, H.
  unfold SFltb. destruct (Prim2SF x); reflexivity.
Qed.

Lemma float_lt_le x y : float_lt x y = true -> float_le x y = true.
Proof.
  unfold float_lt, float_le. rewrite ltb_spec, leb_spec. unfold SFltb, SFleb.
  destruct (SFcompare _ _) as [[| |] |]; try discriminate; reflexivity.
Qed.

Lemma float_le_refl_l x y : float_le x y = true -> float_le x x = true.
Proof.
  unfold float_le. rewrite !leb_spec. unfold SFleb.
  destruct (SFcompare (Prim2SF x) (Prim2SF y)) as [c |] eqn:E; [| discriminate].
  apply SFcompare_nan_l in E as [Hx _]. rewrite SFcompare_refl by exact Hx. reflexivity.
Qed.

Lemma float_le_refl_r x y : float_le x y = true -> float_le y y = true.
Proof.
  unfold float_le. rewrite !leb_spec. unfold SFleb.
  destruct (SFcompare (Prim2SF x) (Prim2SF y)) as [c |] eqn:E; [| discriminate].
  apply SFcompare_nan_l in E as [_ Hy]. rewrite SFcompare_refl by exact Hy. reflexivity.
Qed.

Lemma float_eq_refl_le x y : float_le x y = true -> float_eq x x = true.
Proof.
  unfold float_le, float_eq. rewrite leb_spec, eqb_spec. unfold SFleb, SFeqb.
  destruct (SFcompare (Prim2SF x) (Prim2SF y)) as [c |] eqn:E; [| discriminate].
  apply SFcompare_nan_l in E as [Hx _]. rewrite SFcompare_refl by exact Hx. reflexivity.
Qed.

(** [x <= y] and not [x < y]: the two are equal. *)
Lemma float_le_not_lt_eq x y :
  float_le x y = true -> float_lt x y = false -> float_eq x y = true.
Proof.
  unfold float_le, float_lt, float_eq. rewrite leb_spec, ltb_spec, eqb_spec.
  unfold SFleb, SFltb, SFeqb.
  destruct (SFcompare _ _) as [[| |] |]; try discriminate; reflexivity.
Qed.

Lemma float_eq_sym x y : float_eq x y = true -> float_eq y x = true.
Proof.
  unfold float_eq. rewrite !eqb_spec. unfold SFeqb.
  rewrite (SFcompare_antisym (Prim2SF x) (Prim2SF y)).
  destruct (SFcompare _ _) as [[| |] |]; try discriminate; reflexivity.
Qed.

Lemma float_eq_trans x y z :
  float_eq x y = true -> float_eq y z = true -> float_eq x z = true.
Proof.
  unfold float_eq. rewrite !eqb_spec. unfold SFeqb.
  destruct (SFcompare (Prim2SF x) (Prim2SF y)) as [[| |] |] eqn:E; try discriminate.
  rewrite (SFcompare_Eq_cong _ _ (Prim2SF z) E). intros _ H. exact H.
Qed.

(** ** [clamp] *)

(** The result of [clamp] lies between bounds that are in order. *)
Lemma clamp_bounds (x a b : float) :
  float_le a b = true ->
  float_le a (clamp x a b) = true /\ float_le (clamp x a b) b = true.
Proof.
  intros Hab. unfold clamp, max2, min2. change float_gt with (fun u v => float_lt v u). cbv beta.
  pose proof (float_le_refl_l a b Hab) as Haa.
  pose proof (float_le_refl_r a b Hab) as Hbb.
  destruct (float_lt x b) eqn:Hxb.
  - destruct (float_lt a x) eqn:Hax.
    + split; apply float_lt_le; assumption.
    + split; assumption.
  - destruct (float_lt a b) eqn:Hlt; split; assumption.
Qed.

(** X1: for bounds [a <= b], [clamp(x, a, b)] lies between [a] and [b] for
    every float [x], a NaN included. *)
Theorem clamp_within_bounds (x a b : float) :
  float_le a b = true ->
  float_le a (clamp x a b) = true /\ float_le (clamp x a b) b = true.
Proof. intros H. split; apply (clamp_bounds x a b H). Qed.

Lemma clamp_within_bounds_witness :
  float_le 0 (clamp nan 0 100) = true /\ float_le (clamp nan 0 100) 100 = true.
Proof. apply (clamp_within_bounds nan 0 100). vm_compute. reflexivity. Defined.

(** X2: for bounds [a <= b], [clamp(x, a, b)] equals [x] whenever
    [a <= x <= b], and equals the upper bound [b] when [x] is a NaN. *)
Theorem clamp_fixes_inside_and_sends_nan_up (x a b : float) :
  float_le a b = true ->
  (float_le a x = true -> float_le x b = true -> float_eq (clamp x a b) x = true)
  /\ (is_nan x = true -> float_eq (clamp x a b) b = true).
Proof.
  intros Hab. unfold clamp, max2, min2. change float_gt with (fun u v => float_lt v u). cbv beta. split.
  - intros Hax Hxb.
    destruct (float_lt x b) eqn:Lxb.
    + destruct (float_lt a x) eqn:Lax.
      * apply (float_eq_refl_le x b Hxb).
      * apply float_le_not_lt_eq; assumption.
    + pose proof (float_le_not_lt_eq x b Hxb Lxb) as Exb.
      destruct (float_lt a b) eqn:Lab.
      * apply float_eq_sym. exact Exb.
      * apply float_eq_trans with b; [| apply float_eq_sym; exact Exb].
        apply float_le_not_lt_eq; assumption.
  - intros Hn. rewrite (float_lt_nan_l x b Hn).
    destruct (float_lt a b) eqn:Lab.
    + apply (float_eq_refl_le b b). apply (float_le_refl_r a b Hab).
    + apply float_le_not_lt_eq; assumption.
Qed.

Lemma clamp_fixes_inside_and_sends_nan_up_witness :
  float_eq (clamp 42.5 0 100) 42.5 = true.
Proof.
  apply (proj1 (clamp_fixes_inside_and_sends_nan_up 42.5 0 100 eq_refl)); vm_compute; reflexivity.
Defined.


(** ** A float difference is zero only between equal floats *)

Lemma pos_iter_xO m d : Zpos (Pos.iter xO m d) = (Zpos m * 2 ^ Zpos d)%Z.
Proof.
  induction d as [| d IH] using Pos.peano_ind.
  - cbn [Pos.iter]. lia.
  - rewrite Pos.iter_succ, Pos2Z.inj_xO, IH, Pos2Z.inj_succ, Z.pow_succ_r by lia. ring.
Qed.

Lemma shl_align_fst mx ex ez :
  (ez <= ex)%Z -> Zpos (fst (shl_align mx ex ez)) = (Zpos mx * 2 ^ (ex - ez))%Z.
Proof.
  intros H. unfold shl_align.
  destruct (ez - ex)%Z as [| d | d] eqn:E; cbn [fst]; try lia.
  - replace (ex - ez)%Z with 0%Z by lia. cbn. lia.
  - rewrite pos_iter_xO. f_equal. f_equal. lia.
Qed.

Lemma aligned_scaled s m e ez :
  (-1074 <= ez)%Z -> (ez <= e)%Z ->
  (cond_Zopp s (Zpos (fst (shl_align m e ez))) * 2 ^ (ez + 1074))%Z
  = scaled (S754_finite s m e).
Proof.
  intros H1 H2. rewrite shl_align_fst by exact H2. cbn [scaled].
  replace (e + 1074)%Z with ((e - ez) + (ez + 1074))%Z by lia.
  rewrite (Z.pow_add_r 2 (e - ez) (ez + 1074)) by lia. destruct s; cbn [cond_Zopp]; ring.
Qed.

Lemma SFsub_zero_compare x y s :
  valid_binary x = true -> valid_binary y = true ->
  SFsub prec emax x y = S754_zero s -> SFcompare x y = Some Eq.
Proof.
  intros Vx Vy.
  destruct x as [sx | sx | | sx mx ex], y as [sy | sy | | sy my ey]; cbn [SFsub];
    try discriminate; try reflexivity;
    try (destruct sx, sy; discriminate).
  intros H.
  pose proof (valid_exponent _ _ _ Vx) as Hx. pose proof (valid_exponent _ _ _ Vy) as Hy.
  set (ez := Z.min ex ey) in *.
  assert (Hez : (-1074 <= ez)%Z) by (unfold ez; lia).
  unfold binary_normalize in H.
  destruct (_ - _)%Z as [| d | d] eqn:E;
    [| exfalso; revert H; apply binary_round_not_zero; exact Hez
     | exfalso; revert H; apply binary_round_not_zero; exact Hez].
  rewrite (SFcompare_scaled _ _ Vx Vy eq_refl eq_refl).
  rewrite <- (aligned_scaled sx mx ex ez), <- (aligned_scaled sy my ey ez)
    by (unfold ez; lia).
  f_equal. apply Z.compare_eq_iff. f_equal. lia.
Qed.

Lemma float_eq_zero_spec z :
  float_eq z 0 = true -> exists s, Prim2SF z = S754_zero s.
Proof.
  unfold float_eq. rewrite eqb_spec. change (Prim2SF 0) with (S754_zero false).
  unfold SFeqb. destruct (Prim2SF z) as [s | s | | s m e]; cbn.
  - intros _. exists s. reflexivity.
  - destruct s; discriminate.
  - discriminate.
  - destruct s; discriminate.
Qed.

Lemma float_sub_zero_eq (x y : float) :
  float_eq (x - y) 0 = true -> float_eq x y = true.
Proof.
  intros H. apply float_eq_zero_spec in H as [s H]. rewrite sub_spec in H.
  unfold float_eq. rewrite eqb_spec. unfold SFeqb.
  rewrite (SFsub_zero_compare _ _ s (Prim2SF_valid x) (Prim2SF_valid y) H). reflexivity.
Qed.

(** ** [percent_in_range] and [show_metric] *)

Lemma percent_in_range_cases v vmin vmax :
  (exists p, percent_in_range v vmin vmax = Returns p /\ percent_ok p)
  \/ (exists n, v = VInt n
                /\ int_to_float n = Throws (ConversionError OverflowError)
                /\ percent_in_range v vmin vmax = Throws (ConversionError OverflowError)).
Proof.
  unfold percent_in_range.
  destruct (float_eq vmax vmin) eqn:E.
  - left. eexists. split; [reflexivity |]. cbn. destruct (value_ge v vmax); auto.
  - assert (D : forall x, float_div (x - vmin) (vmax - vmin)
                          = Returns ((x - vmin) / (vmax - vmin))%float).
    { intros x. unfold float_div.
      destruct (float_eq (vmax - vmin) 0) eqn:Z; [| reflexivity].
      apply float_sub_zero_eq in Z. congruence. }
    assert (C : forall q, percent_ok (VFloat (clamp q 0 100))).
    { intros q. apply clamp_bounds. vm_compute. reflexivity. }
    destruct v as [x | n]; cbn [value_to_float].
    + left. rewrite D. eexists. split; [reflexivity | apply C].
    + unfold int_to_float.
      destruct (binary_normalize prec emax n 0 false) eqn:B;
        try (left; rewrite D; eexists; split; [reflexivity | apply C]).
      right. exists n. repeat split. unfold int_to_float. rewrite B. reflexivity.
Qed.

(** X3: [percent_in_range] never raises [ZeroDivisionError] (the test
    [vmax == vmin] catches every pair of bounds whose difference is zero); on a
    float value it always returns; and what it returns is the integer 0 or
    100, or a float between 0.0 and 100.0. *)
Theorem percent_in_range_never_divides_by_zero (v : value) (vmin vmax : float) :
  percent_in_range v vmin vmax <> Throws ZeroDivisionError
  /\ (forall x, v = VFloat x ->
        exists p, percent_in_range v vmin vmax = Returns p /\ percent_ok p)
  /\ (forall p, percent_in_range v vmin vmax = Returns p -> percent_ok p).
Proof.
  destruct (percent_in_range_cases v vmin vmax) as [(p & Hp & Hok) | (n & Hv & _ & Hp)].
  - split; [rewrite Hp; discriminate |]. split.
    + intros x _. exists p. split; assumption.
    + intros p' H. rewrite Hp in H. injection H as <-. exact Hok.
  - split; [rewrite Hp; discriminate |]. split.
    + intros x Hx. congruence.
    + intros p' H. rewrite Hp in H. discriminate.
Qed.


Lemma scaled_hundred : scaled (Prim2SF 100) = (100 * 2 ^ 1074)%Z.
Proof. vm_compute. reflexivity. Qed.

Lemma int_of_percent p :
  percent_ok p -> exists n, int_of_value p = Returns n /\ (0 <= n <= 100)%Z.
Proof.
  destruct p as [r | n]; cbn [percent_ok int_of_value].
  - unfold float_le. rewrite !leb_spec. unfold SFleb. intros [H0 H100].
    pose proof (Prim2SF_valid r) as V.
    change (Prim2SF 0) with (S754_zero false) in H0.
    destruct (Prim2SF r) as [s | s | | s m e] eqn:E.
    + exists 0%Z. split; [reflexivity | lia].
    + destruct s; cbn in H0, H100; discriminate.
    + discriminate.
    + destruct s; [cbn in H0; discriminate |].
      rewrite (SFcompare_scaled _ _ V (Prim2SF_valid 100) eq_refl eq_refl) in H100.
      rewrite scaled_hundred in H100. cbn [scaled cond_Zopp] in H100.
      assert (Hle : (Zpos m * 2 ^ (e + 1074) <= 100 * 2 ^ 1074)%Z).
      { destruct (Z.compare_spec (Zpos m * 2 ^ (e + 1074)) (100 * 2 ^ 1074)) as [A | A | A];
          try discriminate; lia. }
      pose proof (valid_exponent _ _ _ V) as He.
      assert (HP : (0 < 2 ^ 1074)%Z) by (apply Z.pow_pos_nonneg; lia).
      eexists. split; [reflexivity |]. cbn [cond_Zopp]. unfold sf_num, sf_den.
      destruct (Z.leb_spec 0 e) as [Hp | Hn].
      * rewrite Z.div_1_r.
        assert (0 < 2 ^ e)%Z by (apply Z.pow_pos_nonneg; lia).
        replace (e + 1074)%Z with (e + 1074)%Z in Hle by reflexivity.
        rewrite Z.pow_add_r, Z.mul_assoc in Hle by lia.
        apply Z.mul_le_mono_pos_r in Hle; [| exact HP]. lia.
      * assert (HD : (0 < 2 ^ (- e))%Z) by (apply Z.pow_pos_nonneg; lia).
        assert (HQ : (0 < 2 ^ (e + 1074))%Z) by (apply Z.pow_pos_nonneg; lia).
        split; [apply Z.div_pos; lia |].
        apply Z.div_le_upper_bound; [exact HD |].
        apply (Z.mul_le_mono_pos_r _ _ (2 ^ (e + 1074))); [exact HQ |].
        replace (2 ^ (- e) * 100 * 2 ^ (e + 1074))%Z with (100 * 2 ^ 1074)%Z; [exact Hle |].
        rewrite <- Z.mul_assoc, (Z.mul_comm (2 ^ (- e))), <- Z.mul_assoc, <- Z.pow_add_r by lia.
        f_equal. f_equal. lia.
  - intros [-> | ->]; eexists; (split; [reflexivity | lia]).
Qed.

(** The two outcomes of [show_metric]. *)
Lemma show_metric_cases
  (name : string) (v : value) (vmin vmax : float) (unit : string) :
  (exists colour n,
      show_metric name v vmin vmax unit
      = ([Markdown (metric_line name colour v unit); Progress n], None)
      /\ (0 <= n <= 100)%Z
      /\ colour = (if value_lt v vmin || value_gt v vmax then "red" else "#00b894")%string)
  \/ (exists k,
        v = VInt k
        /\ int_to_float k = Throws (ConversionError OverflowError)
        /\ show_metric name v vmin vmax unit = ([], Some (ConversionError OverflowError))).
Proof.
  unfold show_metric.
  destruct (percent_in_range_cases v vmin vmax) as [(p & Hp & Hok) | (k & Hv & Hk & Hp)].
  - left. rewrite Hp. destruct (int_of_percent p Hok) as (n & Hn & Hr). rewrite Hn.
    destruct (value_lt v vmin || value_gt v vmax); do 2 eexists; repeat split; lia.
  - right. exists k. rewrite Hp. repeat split; assumption.
Qed.


Lemma show_vitals_channels rec thr :
  show_vitals rec thr
  = and_then (channel_metric ChTemp rec thr)
      (and_then (channel_metric ChHumid rec thr)
         (and_then (channel_metric ChO2 rec thr)
            (and_then (channel_metric ChCO2 rec thr) (channel_metric ChFan rec thr)))).
Proof. reflexivity. Qed.

Lemma channel_metric_drawn c rec thr :
  (forall k, channel_value c rec = VInt k ->
             int_to_float k <> Throws (ConversionError OverflowError)) ->
  exists n, channel_metric c rec thr = (metric_drawing c rec thr n, None)
            /\ (0 <= n <= 100)%Z.
Proof.
  intros Hk. unfold channel_metric.
  destruct (show_metric_cases (metric_name c) (channel_value c rec)
              (channel_min c thr) (channel_max c thr) (metric_unit c))
    as [(colour & n & Hs & Hn & Hc) | (k & Hv & Ho & _)].
  - exists n. split; [| exact Hn]. rewrite Hs. unfold metric_drawing, metric_colour.
    rewrite flagged_outside. unfold outside_range. rewrite Hc. reflexivity.
  - exfalso. exact (Hk k Hv Ho).
Qed.

(** What the panel draws when the fan speed converts. *)
Lemma show_vitals_drawn (rec : reading) (thr : thresholds_t) :
  int_to_float (FAN rec) <> Throws (ConversionError OverflowError) ->
  exists n1 n2 n3 n4 n5,
    show_vitals rec thr
    = (metric_drawing ChTemp rec thr n1 ++ metric_drawing ChHumid rec thr n2
         ++ metric_drawing ChO2 rec thr n3 ++ metric_drawing ChCO2 rec thr n4
         ++ metric_drawing ChFan rec thr n5, None)
    /\ Forall (fun n => 0 <= n <= 100)%Z [n1; n2; n3; n4; n5].
Proof.
  intros HF. rewrite show_vitals_channels.
  destruct (channel_metric_drawn ChTemp rec thr) as (n1 & E1 & H1); [discriminate |].
  destruct (channel_metric_drawn ChHumid rec thr) as (n2 & E2 & H2); [discriminate |].
  destruct (channel_metric_drawn ChO2 rec thr) as (n3 & E3 & H3); [discriminate |].
  destruct (channel_metric_drawn ChCO2 rec thr) as (n4 & E4 & H4); [discriminate |].
  destruct (channel_metric_drawn ChFan rec thr) as (n5 & E5 & H5).
  { intros k Hk. cbn in Hk. injection Hk as <-. exact HF. }
  exists n1, n2, n3, n4, n5. rewrite E1, E2, E3, E4, E5. split; [reflexivity |].
  repeat constructor; lia.
Qed.

(** X5: when the fan speed converts to a float, the five calls of
    [show_metric] draw, in the order TEMP, HUMID, O2, CO2, FAN, a line that is
    red exactly for the channels the alarm evaluation flags on the same
    reading and thresholds, each followed by a bar from 0 to 100, and raise
    nothing. *)
Theorem vitals_agree_with_alarms (rec : reading) (thr : thresholds_t) :
  int_to_float (FAN rec) <> Throws (ConversionError OverflowError) ->
  exists n1 n2 n3 n4 n5,
    show_vitals rec thr
    = (metric_drawing ChTemp rec thr n1 ++ metric_drawing ChHumid rec thr n2
         ++ metric_drawing ChO2 rec thr n3 ++ metric_drawing ChCO2 rec thr n4
         ++ metric_drawing ChFan rec thr n5, None)
    /\ Forall (fun n => 0 <= n <= 100)%Z [n1; n2; n3; n4; n5].
Proof. intros H. destruct (show_vitals_drawn rec thr H) as (n1 & n2 & n3 & n4 & n5 & E); exists n1, n2, n3, n4, n5; exact E. Qed.

Lemma vitals_agree_with_alarms_witness :
  exists n1 n2 n3 n4 n5,
    show_vitals (sample_reading 38.5) default_thresholds
    = (metric_drawing ChTemp (sample_reading 38.5) default_thresholds n1
         ++ metric_drawing ChHumid (sample_reading 38.5) default_thresholds n2
         ++ metric_drawing ChO2 (sample_reading 38.5) default_thresholds n3
         ++ metric_drawing ChCO2 (sample_reading 38.5) default_thresholds n4
         ++ metric_drawing ChFan (sample_reading 38.5) default_thresholds n5, None)
    /\ Forall (fun n => 0 <= n <= 100)%Z [n1; n2; n3; n4; n5].
Proof.
  apply (vitals_agree_with_alarms (sample_reading 38.5) default_thresholds).
  vm_compute. discriminate.
Defined.


(** ** Ticks that raise *)

(** X6: a tick that raises has still advanced the simulated time by [dt]
    and has logged no row; the trend buffers are either untouched (a call of
    [math.sin] raised) or already hold the values of this tick ([round(fan)]
    raised). *)
Theorem failed_tick_keeps_log
  (sin : float -> float) (dt : float) (w : tick_env) (s s' : session_state) (e : exn) :
  simulate_step sin dt w s = (Raise e, s') ->
  let t := (sim_t s + dt)%float in
  sim_t s' = t
  /\ log_rows s' = log_rows s
  /\ (running s' = running s /\ alarm_paused s' = alarm_paused s
      /\ thresholds s' = thresholds s)
  /\ ((temp_buffer s' = temp_buffer s /\ humid_buffer s' = humid_buffer s
       /\ o2_buffer s' = o2_buffer s /\ co2_buffer s' = co2_buffer s)
      \/ (round_int (tick_fan sin w t) = Raise e
          /\ temp_buffer s' = Deque.append (temp_buffer s) (tick_temp sin w t)
          /\ humid_buffer s' = Deque.append (humid_buffer s) (tick_humid sin w t)
          /\ o2_buffer s' = Deque.append (o2_buffer s) (tick_o2 sin w t)
          /\ co2_buffer s' = Deque.append (co2_buffer s) (tick_co2 sin w t))).
Proof.
  intros H t.
  destruct (simulate_step_cases sin dt w s) as [[e1 He] | [[e1 [Hr He]] | [n [_ He]]]];
    rewrite He in H; try discriminate; injection H as He1 Hs; subst e1 s'; fold t.
  - repeat split. left. repeat split.
  - repeat split. right. fold t in Hr. repeat split. exact Hr.
Qed.

Lemma failed_tick_keeps_log_witness :
  sim_t (snd (simulate_step sin_poly nan quiet_env init_state)) = (sim_t init_state + nan)%float
  /\ log_rows (snd (simulate_step sin_poly nan quiet_env init_state)) = log_rows init_state.
Proof.
  refine (let H := failed_tick_keeps_log sin_poly nan quiet_env init_state
                     (snd (simulate_step sin_poly nan quiet_env init_state)) ValueError _
          in conj (proj1 H) (proj1 (proj2 H))).
  vm_compute. reflexivity.
Defined.

(** ** The log of a run of ticks *)

Lemma snd_save_log stamp s : snd (save_log stamp s) = s.
Proof. unfold save_log. destruct (log_rows s); reflexivity. Qed.

Section LogFacts.
Variable sin : float -> float.

Lemma run_ticks_log ticks : forall s recs s',
  run_ticks sin ticks s = (Ok recs, s') -> log_rows s' = log_rows s ++ map row_of recs.
Proof.
  induction ticks as [| [dt w] ticks IH]; intros s recs s' H.
  - cbn in H. injection H as <- <-. cbn. rewrite app_nil_r. reflexivity.
  - cbn [run_ticks] in H. unfold bind at 1 in H.
    destruct (simulate_step sin dt w s) as [[rec | e] s1] eqn:E1; [| discriminate].
    unfold bind at 1 in H.
    destruct (run_ticks sin ticks s1) as [[rs | e] s2] eqn:E2; [| discriminate].
    cbn in H. injection H as <- <-.
    apply simulate_step_Ok in E1 as (n & _ & _ & Hs1).
    rewrite (IH s1 rs s2 E2). subst s1. cbn [log_rows set_log_rows map].
    rewrite <- app_assoc. reflexivity.
Qed.

End LogFacts.

(** X7: after a run of ticks on an empty log, the export hands to the CSV
    writer exactly the rows of the readings the ticks returned, in order. *)
Theorem export_is_the_readings_in_order
  (sin : float -> float) (ticks : list (float * tick_env)) (s s' : session_state)
  (recs : list reading) (stamp : string) :
  log_rows s = [] ->
  run_ticks sin ticks s = (Ok recs, s') ->
  recs <> [] ->
  fst (save_log stamp s')
  = [UiToCsv ("incubator_log_" ++ stamp ++ ".csv") csv_columns (map row_of recs);
     UiSuccess ("Saved log to " ++ "incubator_log_" ++ stamp ++ ".csv")].
Proof.
  intros Hs H Hr. apply run_ticks_log in H. rewrite Hs in H. cbn [app] in H.
  unfold save_log. rewrite H. destruct recs as [| r rs]; [contradiction | reflexivity].
Qed.

Lemma export_is_the_readings_in_order_witness :
  fst (save_log "20240501_120000"
         (snd (run_ticks sin_poly [(0.2%float, default_env); (0.2%float, quiet_env)]
                 init_state)))
  = [UiToCsv ("incubator_log_" ++ "20240501_120000" ++ ".csv") csv_columns
       (map row_of
          (the_readings
             (fst (run_ticks sin_poly [(0.2%float, default_env); (0.2%float, quiet_env)]
                     init_state))));
     UiSuccess ("Saved log to " ++ "incubator_log_" ++ "20240501_120000" ++ ".csv")].
Proof.
  apply (export_is_the_readings_in_order sin_poly
           [(0.2%float, default_env); (0.2%float, quiet_env)] init_state).
  - reflexivity.
  - vm_compute. reflexivity.
  - vm_compute. discriminate.
Defined.

(** ** What a run of the script does to the session state *)

Section RunFacts.
Variable sin : float -> float.

Lemma script_run_after_buttons u s :
  script_run sin u s
  = (let s3 := after_buttons u s in
     let '(ev1, s4) := if save_log_btn u then save_log (now_strftime u) s3 else ([], s3) in
     let '(ev2, s5) := if running s4 then main_loop sin u s4 else ([], s4) in
     (show_status (set_thresholds (thr_inputs u) s) ++ ev1 ++ ev2, s5)).
Proof. reflexivity. Qed.

Lemma snd_script_run u s :
  snd (script_run sin u s)
  = if running (after_buttons u s) then snd (main_loop sin u (after_buttons u s))
    else after_buttons u s.
Proof.
  rewrite script_run_after_buttons. cbv zeta.
  assert (E : (if save_log_btn u then save_log (now_strftime u) (after_buttons u s)
               else ([], after_buttons u s))
              = (fst (if save_log_btn u then save_log (now_strftime u) (after_buttons u s)
                      else ([], after_buttons u s)), after_buttons u s)).
  { destruct (save_log_btn u); [| reflexivity].
    rewrite <- (snd_save_log (now_strftime u) (after_buttons u s)) at 3.
    apply surjective_pairing. }
  rewrite E. destruct (running (after_buttons u s)); [| reflexivity].
  destruct (main_loop sin u (after_buttons u s)); reflexivity.
Qed.

Lemma after_buttons_fields u s :
  sim_t (after_buttons u s) = sim_t s
  /\ log_rows (after_buttons u s) = log_rows s
  /\ temp_buffer (after_buttons u s) = temp_buffer s
  /\ humid_buffer (after_buttons u s) = humid_buffer s
  /\ o2_buffer (after_buttons u s) = o2_buffer s
  /\ co2_buffer (after_buttons u s) = co2_buffer s
  /\ thresholds (after_buttons u s) = thr_inputs u
  /\ alarm_paused (after_buttons u s) = xorb (pause_alarm_btn u) (alarm_paused s)
  /\ running (after_buttons u s)
     = (if stop_btn u then false else if start_btn u then true else running s).
Proof.
  unfold after_buttons. destruct s as [r p l t bt bh bo bc th].
  destruct (start_btn u), (stop_btn u), (pause_alarm_btn u), p, r; repeat split.
Qed.

(** The state the block under [if running] leaves. *)
Lemma main_loop_state u s :
  let dt := (float_of_int (sim_speed u) / 1000.0)%float in
  let t := (sim_t s + dt)%float in
  snd (main_loop sin u s) = set_sim_t t s
  \/ (exists e, round_int (tick_fan sin (env u) t) = Raise e
                /\ snd (main_loop sin u s) = pushed_state sin (env u) t s)
  \/ (exists n, round_int (tick_fan sin (env u) t) = Ok n
                /\ snd (main_loop sin u s)
                   = set_log_rows
                       (if clear_log_btn u then []
                        else log_rows s ++ [row_of (reading_at sin (env u) (thresholds s) t n)])
                       (pushed_state sin (env u) t s)).
Proof.
  intros dt t. unfold main_loop. fold dt.
  destruct (simulate_step_cases sin dt (env u) s) as [[e He] | [[e [Hr He]] | [n [Hr He]]]];
    rewrite He.
  - left. reflexivity.
  - right. left. exists e. split; [exact Hr | reflexivity].
  - right. right. exists n. split; [exact Hr |].
    destruct (clear_log_btn u); reflexivity.
Qed.

End RunFacts.

(** X13: after any run of the script, exception or not, [alarm_paused] is
    the old flag toggled by the Pause button alone, [running] is decided by
    Stop, then Start, then its old value, and the thresholds are the
    sidebar's. *)
Theorem control_flags_follow_the_buttons
  (sin : float -> float) (u : ui_inputs) (s : session_state) :
  alarm_paused (snd (script_run sin u s)) = xorb (pause_alarm_btn u) (alarm_paused s)
  /\ running (snd (script_run sin u s))
     = (if stop_btn u then false else if start_btn u then true else running s)
  /\ thresholds (snd (script_run sin u s)) = thr_inputs u.
Proof.
  rewrite snd_script_run.
  destruct (after_buttons_fields u s) as (_ & _ & _ & _ & _ & _ & Hth & Hp & Hr).
  rewrite <- Hth, <- Hp, <- Hr.
  destruct (running (after_buttons u s)) eqn:R; [| repeat split; exact R].
  destruct (main_loop_state sin u (after_buttons u s))
    as [He | [[e [_ He]] | [n [_ He]]]]; rewrite He; repeat split; exact R.
Qed.

(** X11: a run of the script on a stopped session, without Start, leaves the
    simulated time, the log and the four trend buffers as they were, whatever
    the other buttons (Clear Log included). *)
Theorem stopped_session_does_not_tick
  (sin : float -> float) (u : ui_inputs) (s : session_state) :
  running s = false ->
  start_btn u = false ->
  sim_t (snd (script_run sin u s)) = sim_t s
  /\ log_rows (snd (script_run sin u s)) = log_rows s
  /\ temp_buffer (snd (script_run sin u s)) = temp_buffer s
  /\ humid_buffer (snd (script_run sin u s)) = humid_buffer s
  /\ o2_buffer (snd (script_run sin u s)) = o2_buffer s
  /\ co2_buffer (snd (script_run sin u s)) = co2_buffer s.
Proof.
  intros Hr Hs. rewrite snd_script_run.
  destruct (after_buttons_fields u s) as (A & B & C & D & E & F & _ & _ & R).
  rewrite Hr, Hs in R. replace (running (after_buttons u s)) with false
    by (rewrite R; destruct (stop_btn u); reflexivity).
  repeat split; assumption.
Qed.

Lemma stopped_session_does_not_tick_witness :
  sim_t (snd (script_run sin_poly clear_inputs init_state)) = sim_t init_state
  /\ log_rows (snd (script_run sin_poly clear_inputs init_state)) = log_rows init_state.
Proof.
  refine (let H := stopped_session_does_not_tick sin_poly clear_inputs init_state _ _
          in conj (proj1 H) (proj1 (proj2 H))); reflexivity.
Defined.

Section ClearFacts.
Variable sin : float -> float.

Lemma main_loop_defined u s :
  let t := (sim_t s + float_of_int (sim_speed u) / 1000.0)%float in
  tick_defined sin (env u) t ->
  exists n,
    round_int (tick_fan sin (env u) t) = Ok n
    /\ main_loop sin u s
       = (let rec := reading_at sin (env u) (thresholds s) t n in
          let s1 := set_log_rows (log_rows s ++ [row_of rec]) (pushed_state sin (env u) t s) in
          let shown :=
            plot_trends s1
              ++ [alarm_status rec (alarm_paused s1);
                  UiWrite ("Total log rows: "
                           ++ int_str (Z.of_nat (List.length (log_rows s1))))] in
          if clear_log_btn u then (shown ++ fst (clear_log s1), snd (clear_log s1))
          else (shown, s1)).
Proof.
  intros t HD.
  apply (simulate_step_returns sin (float_of_int (sim_speed u) / 1000.0) (env u) s) in HD
    as (rec & s1 & H).
  pose proof H as H'. apply simulate_step_Ok in H' as (n & Hn & Hr & Hs).
  exists n. split; [exact Hn |]. unfold main_loop. rewrite H. subst s1 rec.
  destruct (clear_log_btn u); reflexivity.
Qed.

End ClearFacts.

(** X12: in a run of a running session with Clear Log pressed, the tick runs
    first: the log ends empty, so the row of this run's reading is dropped
    with the others, while the simulated time and the trend buffers keep the
    tick. *)
Theorem clear_log_drops_the_row_of_its_run
  (sin : float -> float) (u : ui_inputs) (s : session_state) :
  let t := (sim_t s + float_of_int (sim_speed u) / 1000.0)%float in
  running (after_buttons u s) = true ->
  clear_log_btn u = true ->
  tick_defined sin (env u) t ->
  log_rows (snd (script_run sin u s)) = []
  /\ sim_t (snd (script_run sin u s)) = t
  /\ temp_buffer (snd (script_run sin u s))
     = Deque.append (temp_buffer s) (tick_temp sin (env u) t)
  /\ humid_buffer (snd (script_run sin u s))
     = Deque.append (humid_buffer s) (tick_humid sin (env u) t)
  /\ o2_buffer (snd (script_run sin u s))
     = Deque.append (o2_buffer s) (tick_o2 sin (env u) t)
  /\ co2_buffer (snd (script_run sin u s))
     = Deque.append (co2_buffer s) (tick_co2 sin (env u) t).
Proof.
  intros t R C HD. rewrite snd_script_run, R.
  destruct (after_buttons_fields u s) as (A & _ & HT & HH & HO & HC & _).
  destruct (main_loop_defined sin u (after_buttons u s)) as (n & _ & E).
  { rewrite A. exact HD. }
  rewrite E, C. cbv zeta. cbn [snd clear_log]. rewrite A. fold t.
  unfold pushed_state.
  cbn [log_rows sim_t temp_buffer humid_buffer o2_buffer co2_buffer set_log_rows
       push_buffers set_sim_t].
  rewrite HT, HH, HO, HC. repeat split.
Qed.

Lemma clear_log_drops_the_row_of_its_run_witness :
  log_rows (snd (script_run sin_poly clear_inputs (set_running true init_state))) = [].
Proof.
  refine (proj1 (clear_log_drops_the_row_of_its_run sin_poly clear_inputs
                   (set_running true init_state) _ _ _)).
  - reflexivity.
  - reflexivity.
  - split; [do 4 eexists; repeat split; vm_compute; reflexivity | vm_compute; reflexivity].
Defined.


(** ** The rows of the log *)

Lemma row_of_header r : header_row (row_of r).
Proof. split; reflexivity. Qed.

Section RowFacts.
Variable sin : float -> float.

Lemma script_run_rows u s :
  Forall header_row (log_rows s) -> Forall header_row (log_rows (snd (script_run sin u s))).
Proof.
  intros H. rewrite snd_script_run.
  destruct (after_buttons_fields u s) as (_ & L & _).
  rewrite <- L in H.
  destruct (running (after_buttons u s)); [| exact H].
  destruct (main_loop_state sin u (after_buttons u s))
    as [He | [[e [_ He]] | [n [_ He]]]]; rewrite He; try exact H.
  cbn [log_rows set_log_rows]. destruct (clear_log_btn u); [constructor |].
  apply Forall_app. split; [exact H |]. constructor; [apply row_of_header | constructor].
Qed.

Lemma session_rows us : forall s,
  Forall header_row (log_rows s) -> Forall header_row (log_rows (session sin us s)).
Proof.
  induction us as [| u us IH]; intros s H; cbn [session]; [exact H |].
  apply IH, script_run_rows, H.
Qed.

End RowFacts.

(** X8: in every session, each row of the log has the seven cells of the
    CSV header (a string, four floats, an integer, a string), and so has each
    row the export hands to the CSV writer, under that header. *)
Theorem logged_rows_match_the_header
  (sin : float -> float) (us : list ui_inputs) (stamp : string) :
  Forall header_row (log_rows (session sin us init_state))
  /\ (forall name cols rows,
        In (UiToCsv name cols rows) (fst (save_log stamp (session sin us init_state))) ->
        cols = csv_columns /\ Forall header_row rows).
Proof.
  assert (H : Forall header_row (log_rows (session sin us init_state)))
    by (apply session_rows; constructor).
  split; [exact H |].
  intros name cols rows. unfold save_log.
  destruct (log_rows (session sin us init_state)) as [| r l] eqn:E; cbn [fst In].
  - intros [A | []]. discriminate.
  - intros [A | [A | []]]; [| discriminate]. injection A as _ <- <-. split; [reflexivity | exact H].
Qed.

(** ** The alarm string and the status *)

Lemma alarm_message_nonempty r c : exists a t, alarm_message r c = String a t.
Proof. destruct c; cbn; eexists; eexists; reflexivity. Qed.

Lemma concat_nonempty sep x l :
  (exists a t, x = String a t) -> exists a t, String.concat sep (x :: l) = String a t.
Proof.
  intros (a & t & ->). destruct l; cbn; eexists; eexists; reflexivity.
Qed.

Lemma alarm_empty_iff r th :
  alarm_text (reading_alarms r th) = ""%string
  <-> forall c, outside_range c r th = false.
Proof.
  rewrite alarm_text_concat, evaluate_alarms_filter. split.
  - intros H c.
    destruct (filter (fun c => outside_range c r th) channels) as [| c0 l] eqn:F.
    + destruct (outside_range c r th) eqn:O; [| reflexivity].
      assert (In c (filter (fun c => outside_range c r th) channels)).
      { apply filter_In. split; [destruct c; cbn; tauto | exact O]. }
      rewrite F in H0. contradiction.
    + cbn [map] in H.
      destruct (concat_nonempty "; " (alarm_message r c0) (map (alarm_message r) l)
                  (alarm_message_nonempty r c0)) as (a & t & E).
      rewrite E in H. discriminate.
  - intros H.
    assert (F : filter (fun c => outside_range c r th) channels = []).
    { unfold channels. cbn [filter]. rewrite !H. reflexivity. }
    rewrite F. reflexivity.
Qed.

(** X9: for the reading a tick returns, the alarm field is empty, and the
    status shows "All parameters normal", exactly when no channel is out of
    range. *)
Theorem normal_status_iff_all_in_range
  (sin : float -> float) (dt : float) (w : tick_env) (s s' : session_state) (rec : reading)
  (paused : bool) :
  simulate_step sin dt w s = (Ok rec, s') ->
  (alarm_status rec paused = UiSuccess "All parameters normal"
   <-> forall c, outside_range c rec (thresholds s) = false)
  /\ (alarm rec = ""%string <-> forall c, outside_range c rec (thresholds s) = false).
Proof.
  intros H. apply simulate_step_Ok in H as (n & _ & Hr & _).
  assert (Ha : alarm rec = alarm_text (reading_alarms rec (thresholds s)))
    by (subst rec; apply reading_at_alarms).
  assert (E : alarm rec = ""%string <-> forall c, outside_range c rec (thresholds s) = false)
    by (rewrite Ha; apply alarm_empty_iff).
  split; [| exact E]. rewrite <- E. unfold alarm_status.
  destruct (alarm rec), paused; split; intros A; try reflexivity; discriminate.
Qed.

Lemma normal_status_iff_all_in_range_witness :
  alarm (the_reading (fst (simulate_step sin_poly 0.2 quiet_env init_state))) = ""%string
  <-> forall c,
      outside_range c (the_reading (fst (simulate_step sin_poly 0.2 quiet_env init_state)))
        (thresholds init_state) = false.
Proof.
  refine (proj2 (normal_status_iff_all_in_range sin_poly 0.2 quiet_env init_state
                   (snd (simulate_step sin_poly 0.2 quiet_env init_state))
                   (the_reading (fst (simulate_step sin_poly 0.2 quiet_env init_state)))
                   false _)).
  vm_compute. reflexivity.
Defined.

(** X10: a value that is a NaN is never flagged, whatever the thresholds;
    and a channel whose two bounds are NaN is never flagged, whatever the
    value. *)
Theorem nan_is_never_flagged (r : reading) (th : thresholds_t) (c : channel) :
  (exists x, channel_value c r = VFloat x /\ is_nan x = true)
  \/ (is_nan (channel_min c th) = true /\ is_nan (channel_max c th) = true) ->
  flagged c (reading_alarms r th) = false.
Proof.
  intros H. rewrite flagged_outside. unfold outside_range. apply orb_false_iff.
  destruct H as [(x & Hv & Hn) | [Hmin Hmax]].
  - rewrite Hv. cbn [value_lt value_gt]. unfold float_gt.
    split; [apply float_lt_nan_l | apply (float_lt_nan_r (channel_max c th) x)]; exact Hn.
  - apply is_nan_spec in Hmin, Hmax.
    destruct (channel_value c r) as [x | n]; cbn [value_lt value_gt].
    + split; [apply float_lt_nan_r | apply float_lt_nan_l]; apply is_nan_spec; assumption.
    + unfold int_lt_float, int_gt_float, int_compare_float. rewrite Hmin, Hmax.
      split; reflexivity.
Qed.

Lemma nan_is_never_flagged_witness :
  flagged ChTemp (reading_alarms (sample_reading nan) default_thresholds) = false.
Proof.
  apply (nan_is_never_flagged (sample_reading nan) default_thresholds ChTemp).
  left. exists nan. split; reflexivity.
Defined.

(** ** The title block *)

Lemma last_app {A} (l : list A) (x d : A) : last (l ++ [x]) d = x.
Proof.
  induction l as [| a l IH]; [reflexivity |].
  cbn [app]. destruct (l ++ [x]) eqn:E; [destruct l; discriminate |].
  cbn [last]. cbn [last] in IH. exact IH.
Qed.

(** X14: once a tick has returned a reading, the title block shows that
    tick's timestamp as the last update; once the log is cleared it shows
    "no data". *)
Theorem last_update_is_the_latest_tick
  (sin : float -> float) (dt : float) (w : tick_env) (s s' : session_state) (rec : reading) :
  simulate_step sin dt w s = (Ok rec, s') ->
  In (UiWrite ("**Last update:** " ++ now_isoformat w)) (show_status s')
  /\ In (UiWrite "**Last update:** no data") (show_status (snd (clear_log s'))).
Proof.
  intros H. apply simulate_step_Ok in H as (n & _ & Hr & Hs).
  split.
  - subst s'. unfold show_status. cbn [log_rows set_log_rows].
    rewrite last_app. subst rec. cbn. right. left. reflexivity.
  - cbn. right. left. reflexivity.
Qed.

Lemma last_update_is_the_latest_tick_witness :
  In (UiWrite ("**Last update:** " ++ now_isoformat quiet_env))
    (show_status (snd (simulate_step sin_poly 0.2 quiet_env init_state))).
Proof.
  refine (proj1 (last_update_is_the_latest_tick sin_poly 0.2 quiet_env init_state
                   (snd (simulate_step sin_poly 0.2 quiet_env init_state))
                   (the_reading (fst (simulate_step sin_poly 0.2 quiet_env init_state))) _)).
  vm_compute. reflexivity.
Defined.

(** X16: in a run of a running session whose tick returns, the alarm of the
    reading is evaluated against the thresholds entered in the sidebar for
    this very run; that alarm is what the status block shows, under the pause
    flag as the Pause button of this run leaves it, and what the appended row
    carries. *)
Theorem sidebar_thresholds_apply_in_the_same_run
  (sin : float -> float) (u : ui_inputs) (s : session_state) :
  let t := (sim_t s + float_of_int (sim_speed u) / 1000.0)%float in
  running (after_buttons u s) = true ->
  tick_defined sin (env u) t ->
  exists rec,
    (exists n, rec = reading_at sin (env u) (thr_inputs u) t n)
    /\ alarm rec = alarm_text (reading_alarms rec (thr_inputs u))
    /\ In (alarm_status rec (xorb (pause_alarm_btn u) (alarm_paused s)))
         (fst (script_run sin u s))
    /\ (clear_log_btn u = false ->
        log_rows (snd (script_run sin u s)) = log_rows s ++ [row_of rec]).
Proof.
  intros t R HD.
  destruct (after_buttons_fields u s) as (A & L & _ & _ & _ & _ & Hth & Hp & _).
  destruct (main_loop_defined sin u (after_buttons u s)) as (n & _ & E).
  { rewrite A. exact HD. }
  rewrite A, Hth in E. fold t in E.
  exists (reading_at sin (env u) (thr_inputs u) t n).
  split; [exists n; reflexivity |]. split; [apply reading_at_alarms |]. split.
  - rewrite script_run_after_buttons. cbv zeta.
    destruct (if save_log_btn u then save_log (now_strftime u) (after_buttons u s)
              else ([], after_buttons u s)) as [ev1 s4] eqn:E4.
    assert (S4 : s4 = after_buttons u s).
    { destruct (save_log_btn u); [| injection E4 as _ <-; reflexivity].
      rewrite <- (snd_save_log (now_strftime u) (after_buttons u s)), E4. reflexivity. }
    subst s4. rewrite R, E. cbv zeta. cbn [alarm_paused set_log_rows].
    assert (P : alarm_paused (pushed_state sin (env u) t (after_buttons u s))
                = xorb (pause_alarm_btn u) (alarm_paused s)) by (rewrite <- Hp; reflexivity).
    rewrite P.
    destruct (clear_log_btn u); cbn [fst]; rewrite !in_app_iff; cbn [In]; auto 10.
  - intros C. rewrite snd_script_run, R, E, C. cbv zeta. cbn [snd log_rows set_log_rows].
    rewrite L. reflexivity.
Qed.

Lemma sidebar_thresholds_apply_in_the_same_run_witness :
  exists rec,
    (exists n, rec = reading_at sin_poly (env idle_inputs) (thr_inputs idle_inputs)
                       (sim_t (set_running true init_state)
                        + float_of_int (sim_speed idle_inputs) / 1000.0) n)
    /\ alarm rec = alarm_text (reading_alarms rec (thr_inputs idle_inputs))
    /\ In (alarm_status rec (xorb (pause_alarm_btn idle_inputs)
                               (alarm_paused (set_running true init_state))))
         (fst (script_run sin_poly idle_inputs (set_running true init_state)))
    /\ (clear_log_btn idle_inputs = false ->
        log_rows (snd (script_run sin_poly idle_inputs (set_running true init_state)))
        = log_rows (set_running true init_state) ++ [row_of rec]).
Proof.
  apply (sidebar_thresholds_apply_in_the_same_run sin_poly idle_inputs
           (set_running true init_state)).
  - reflexivity.
  - split; [do 4 eexists; repeat split; vm_compute; reflexivity | vm_compute; reflexivity].
Defined.



(** ** Integers within the range of doubles convert *)

Local Open Scope Z_scope.

Lemma Zdigits2_le m k : 0 < m -> 0 <= k -> m < 2 ^ k -> Zdigits2 m <= k.
Proof.
  intros Hm Hk H. destruct m as [| p | p]; try lia. cbn [Zdigits2].
  pose proof (digits2_pos_bounds p) as [Hlo _].
  destruct (Z.le_gt_cases (Zpos (digits2_pos p)) k) as [L | G]; [exact L | exfalso].
  assert (2 ^ k <= 2 ^ (Zpos (digits2_pos p) - 1)) by (apply Z.pow_le_mono_r; lia).
  lia.
Qed.

Lemma Zdigits2_pos m : 0 < m -> 0 < Zdigits2 m /\ m < 2 ^ Zdigits2 m.
Proof.
  intros Hm. destruct m as [| p | p]; try lia. cbn [Zdigits2].
  split; [lia | apply digits2_pos_bounds].
Qed.

Lemma fexp_mono a b : a <= b -> fexp prec emax a <= fexp prec emax b.
Proof. unfold fexp. lia. Qed.

Lemma fexp_value a : fexp prec emax a = Z.max (a - 53) (-1074).
Proof. reflexivity. Qed.

Lemma shr_fexp_spec m e l :
  0 < m ->
  snd (shr_fexp prec emax m e l) = Z.max e (fexp prec emax (Zdigits2 m + e))
  /\ shr_m (fst (shr_fexp prec emax m e l))
     = m / 2 ^ (snd (shr_fexp prec emax m e l) - e).
Proof.
  intros Hm. unfold shr_fexp, shr.
  destruct (fexp prec emax (Zdigits2 m + e) - e) as [| n | n] eqn:En; cbn [fst snd].
  - rewrite shr_record_of_loc_m. replace (e - e) with 0 by lia.
    rewrite Z.pow_0_r, Z.div_1_r. split; lia.
  - rewrite iter_shr_1_m by (rewrite shr_record_of_loc_m; lia).
    rewrite shr_record_of_loc_m. split; [lia |]. f_equal. f_equal. lia.
  - rewrite shr_record_of_loc_m. replace (e - e) with 0 by lia.
    rewrite Z.pow_0_r, Z.div_1_r. split; lia.
Qed.

Lemma round_nearest_even_le m l : round_nearest_even m l <= m + 1.
Proof.
  destruct l as [| []]; cbn [round_nearest_even]; try lia. destruct (Z.even m); lia.
Qed.

Lemma binary_round_aux_finite sx mx ex lx :
  0 < mx -> -1074 <= ex -> ex <= 970 -> Zdigits2 mx + ex <= 1023 ->
  exists m e, binary_round_aux prec emax sx mx ex lx = S754_finite sx m e.
Proof.
  intros Hm Hlo Hhi Hd. unfold binary_round_aux.
  pose proof (shr_fexp_pos mx ex lx Hm Hlo) as [P1 P2].
  pose proof (shr_fexp_spec mx ex lx Hm) as [S1 S2].
  destruct (shr_fexp prec emax mx ex lx) as [mrs' e']. cbn [fst snd] in *.
  set (m1 := shr_m mrs') in *.
  assert (He' : e' <= 970).
  { rewrite S1, fexp_value. lia. }
  assert (Hee : ex <= e') by lia.
  (* the shifted mantissa still fits below 2^(1023 - e') *)
  assert (Hm1 : m1 < 2 ^ (1023 - e')).
  { rewrite S2. apply Z.div_lt_upper_bound; [apply Z.pow_pos_nonneg; lia |].
    rewrite <- Z.pow_add_r by lia.
    destruct (Zdigits2_pos mx Hm) as [_ Hlt].
    eapply Z.lt_le_trans; [exact Hlt |]. apply Z.pow_le_mono_r; lia. }
  set (m2 := round_nearest_even m1 (loc_of_shr_record mrs')).
  assert (Hm2 : 0 < m2) by (apply round_nearest_even_pos; exact P1).
  assert (Hm2' : m2 < 2 ^ (1024 - e')).
  { pose proof (round_nearest_even_le m1 (loc_of_shr_record mrs')). fold m2 in H.
    replace (1024 - e') with (Z.succ (1023 - e')) by lia.
    rewrite Z.pow_succ_r by lia.
    assert (0 < 2 ^ (1023 - e')) by (apply Z.pow_pos_nonneg; lia). lia. }
  pose proof (shr_fexp_pos m2 e' loc_Exact Hm2 P2) as [Q1 _].
  pose proof (shr_fexp_spec m2 e' loc_Exact Hm2) as [T1 _].
  destruct (shr_fexp prec emax m2 e' loc_Exact) as [mrs'' e'']. cbn [fst snd] in *.
  assert (Hd2 : Zdigits2 m2 + e' <= 1024).
  { pose proof (Zdigits2_le m2 (1024 - e') Hm2 ltac:(lia) Hm2'). lia. }
  assert (He'' : e'' <= 971).
  { rewrite T1, fexp_value. lia. }
  destruct (shr_m mrs'') as [| m | m]; try lia.
  replace (e'' <=? emax - prec) with true
    by (symmetry; apply Z.leb_le; change (emax - prec) with 971; exact He'').
  exists m, e''. reflexivity.
Qed.

Lemma digits2_pos_iter_xO m d :
  Zpos (digits2_pos (Pos.iter xO m d)) = Zpos (digits2_pos m) + Zpos d.
Proof.
  induction d as [| d IH] using Pos.peano_ind.
  - cbn [Pos.iter digits2_pos]. lia.
  - rewrite Pos.iter_succ. cbn [digits2_pos]. rewrite Pos2Z.inj_succ, IH. lia.
Qed.

Lemma binary_round_int_finite sx p :
  Zpos p < 2 ^ 1023 -> exists m e, binary_round prec emax sx p 0 = S754_finite sx m e.
Proof.
  intros Hp. unfold binary_round, shl_align.
  assert (Hd : Zpos (digits2_pos p) <= 1023)
    by (apply (Zdigits2_le (Zpos p) 1023); lia).
  rewrite fexp_value. replace (Zpos (digits2_pos p) + 0) with (Zpos (digits2_pos p)) by lia.
  destruct (Z.max (Zpos (digits2_pos p) - 53) (-1074) - 0) as [| k | k] eqn:Ek.
  - apply binary_round_aux_finite; cbn [Zdigits2]; lia.
  - apply binary_round_aux_finite; cbn [Zdigits2]; lia.
  - apply binary_round_aux_finite; cbn [Zdigits2]; try lia.
    rewrite digits2_pos_iter_xO. lia.
Qed.

Lemma int_to_float_returns n :
  Z.abs n < 2 ^ 1023 -> exists x, int_to_float n = Returns x.
Proof.
  intros H. unfold int_to_float, binary_normalize.
  destruct n as [| p | p].
  - eexists. reflexivity.
  - destruct (binary_round_int_finite false p) as (m & e & E); [exact H |].
    rewrite E. eexists. reflexivity.
  - destruct (binary_round_int_finite true p) as (m & e & E); [exact H |].
    rewrite E. eexists. reflexivity.
Qed.

Local Close Scope Z_scope.

(** For a reading whose fan speed is below 2^1023 in absolute value, the
    vitals panel raises nothing: it draws five lines and five bars, each bar
    from 0 to 100. *)
Theorem vitals_never_raise_for_representable_fan (rec : reading) (thr : thresholds_t) :
  (Z.abs (FAN rec) < 2 ^ 1023)%Z ->
  snd (show_vitals rec thr) = None
  /\ List.length (fst (show_vitals rec thr)) = 10%nat
  /\ Forall (fun ev => match ev with Progress n => (0 <= n <= 100)%Z | Markdown _ => True end)
       (fst (show_vitals rec thr)).
Proof.
  intros H.
  destruct (show_vitals_drawn rec thr) as (n1 & n2 & n3 & n4 & n5 & E & F).
  { destruct (int_to_float_returns (FAN rec) H) as [x Hx]. rewrite Hx. discriminate. }
  rewrite E. cbn [fst snd]. split; [reflexivity |]. split; [reflexivity |].
  inversion F as [| ? ? F1 F']; subst. inversion F' as [| ? ? F2 F'']; subst.
  inversion F'' as [| ? ? F3 F''']; subst. inversion F''' as [| ? ? F4 F'''']; subst.
  inversion F'''' as [| ? ? F5 _]; subst.
  unfold metric_drawing. cbn [app].
  repeat (apply Forall_cons; [first [exact I | assumption] |]). apply Forall_nil.
Qed.

Lemma vitals_never_raise_for_representable_fan_witness :
  snd (show_vitals (sample_reading 38.5) default_thresholds) = None.
Proof.
  refine (proj1 (vitals_never_raise_for_representable_fan (sample_reading 38.5)
                   default_thresholds _)).
  vm_compute. reflexivity.
Defined.


(** ** The export within a run of the script *)

Section ExportFacts.
Variable sin : float -> float.

Lemma main_loop_writes_no_file u s :
  Forall (fun ev => writes_file ev = false) (fst (main_loop sin u s)).
Proof.
  unfold main_loop.
  destruct (simulate_step sin _ (env u) s) as [[rec | e] s1].
  - assert (H : Forall (fun ev => writes_file ev = false)
                  (plot_trends s1
                     ++ [alarm_status rec (alarm_paused s1);
                         UiWrite ("Total log rows: "
                                  ++ int_str (Z.of_nat (List.length (log_rows s1))))])).
    { apply Forall_app. split; [repeat constructor |].
      repeat constructor. unfold alarm_status.
      destruct (alarm rec), (alarm_paused s1); reflexivity. }
    destruct (clear_log_btn u); cbn [fst clear_log]; [| exact H].
    apply Forall_app. split; [exact H | repeat constructor].
  - repeat constructor.
Qed.

Lemma show_status_writes_no_file s :
  Forall (fun ev => writes_file ev = false) (show_status s).
Proof. unfold show_status. repeat constructor. destruct (alarm_paused s); reflexivity. Qed.

End ExportFacts.

(** X15: in a run of the script with Save pressed on a non-empty log, the
    rows handed to the CSV writer are the log as it was before the run: the
    export comes before the tick, and nothing else in the run writes a file. *)
Theorem export_precedes_the_tick
  (sin : float -> float) (u : ui_inputs) (s : session_state) :
  save_log_btn u = true ->
  log_rows s <> [] ->
  In (UiToCsv ("incubator_log_" ++ now_strftime u ++ ".csv") csv_columns (log_rows s))
    (fst (script_run sin u s))
  /\ (forall name cols rows,
        In (UiToCsv name cols rows) (fst (script_run sin u s)) -> rows = log_rows s).
Proof.
  intros Hs Hl.
  assert (E0 : exists ev2,
             fst (script_run sin u s)
             = show_status (set_thresholds (thr_inputs u) s)
                 ++ [UiToCsv ("incubator_log_" ++ now_strftime u ++ ".csv") csv_columns
                       (log_rows s);
                     UiSuccess ("Saved log to " ++ "incubator_log_" ++ now_strftime u ++ ".csv")]
                 ++ ev2
             /\ Forall (fun ev => writes_file ev = false) ev2).
  { rewrite script_run_after_buttons. cbv zeta. rewrite Hs.
    destruct (after_buttons_fields u s) as (_ & L & _).
    unfold save_log. rewrite L.
    destruct (log_rows s) as [| r l] eqn:E; [contradiction |].
    cbv beta iota zeta.
    set (b := after_buttons u s) in *.
    destruct (if running b then main_loop sin u b else ([], b)) as [ev2 s5] eqn:E2.
    exists ev2. split; [reflexivity |].
    destruct (running b).
    - pose proof (main_loop_writes_no_file sin u b) as H. rewrite E2 in H. exact H.
    - injection E2 as <- _. constructor. }
  destruct E0 as (ev2 & E0 & H2). rewrite E0. split.
  - apply in_or_app. right. left. reflexivity.
  - intros name cols rows A.
    apply in_app_or in A as [A | A]; [| apply in_app_or in A as [[A | [A | []]] | A]].
    + pose proof (show_status_writes_no_file (set_thresholds (thr_inputs u) s)) as H.
      rewrite Forall_forall in H. apply H in A. discriminate.
    + injection A as _ _ <-. reflexivity.
    + discriminate.
    + rewrite Forall_forall in H2. apply H2 in A. discriminate.
Qed.

Lemma export_precedes_the_tick_witness :
  In (UiToCsv ("incubator_log_" ++ "20240501_120000" ++ ".csv") csv_columns
        [row_of (sample_reading 37.0)])
    (fst (script_run sin_poly
            {| start_btn := true; stop_btn := false; pause_alarm_btn := false;
               save_log_btn := true; clear_log_btn := false;
               thr_inputs := default_thresholds; sim_speed := 200;
               now_strftime := "20240501_120000"; env := default_env |}
            (set_log_rows [row_of (sample_reading 37.0)] init_state))).
Proof.
  refine (proj1 (export_precedes_the_tick sin_poly
                   {| start_btn := true; stop_btn := false; pause_alarm_btn := false;
                      save_log_btn := true; clear_log_btn := false;
                      thr_inputs := default_thresholds; sim_speed := 200;
                      now_strftime := "20240501_120000"; env := default_env |}
                   (set_log_rows [row_of (sample_reading 37.0)] init_state) _ _)).
  - reflexivity.
  - discriminate.
Defined.

(** ** The fan speed of a tick converts to a float *)

Local Open Scope Z_scope.

Lemma shr_1_even k b :
  0 <= k -> shr_1 {| shr_m := 2 * k; shr_r := false; shr_s := b |}
            = {| shr_m := k; shr_r := false; shr_s := b |}.
Proof. intros H. destruct k as [| q | q]; try lia; reflexivity. Qed.

Lemma iter_shr_1_exact p : forall k,
  0 <= k ->
  iter_pos shr_1 p {| shr_m := k * 2 ^ Zpos p; shr_r := false; shr_s := false |}
  = {| shr_m := k; shr_r := false; shr_s := false |}.
Proof.
  induction p as [p IH | p IH |]; intros k Hk; cbn [iter_pos].
  - assert (Hq : 0 <= k * 2 ^ Zpos p) by (apply Z.mul_nonneg_nonneg; [lia | apply Z.pow_nonneg; lia]).
    replace (k * 2 ^ Zpos p~1) with (2 * (k * 2 ^ Zpos p * 2 ^ Zpos p)).
    + rewrite shr_1_even by (apply Z.mul_nonneg_nonneg; [exact Hq | apply Z.pow_nonneg; lia]).
      rewrite (IH _ Hq). apply IH. exact Hk.
    + replace (Zpos p~1) with (Zpos p + Zpos p + 1) by lia.
      rewrite !Z.pow_add_r, Z.pow_1_r by lia. ring.
  - assert (Hq : 0 <= k * 2 ^ Zpos p) by (apply Z.mul_nonneg_nonneg; [lia | apply Z.pow_nonneg; lia]).
    replace (k * 2 ^ Zpos p~0) with (k * 2 ^ Zpos p * 2 ^ Zpos p).
    + rewrite (IH _ Hq). apply IH. exact Hk.
    + replace (Zpos p~0) with (Zpos p + Zpos p) by lia.
      rewrite Z.pow_add_r by lia. ring.
  - replace (k * 2 ^ 1) with (2 * k) by (rewrite Z.pow_1_r; ring). apply shr_1_even. exact Hk.
Qed.

Lemma digits2_pos_unique p k :
  2 ^ (k - 1) <= Zpos p < 2 ^ k -> 0 < k -> Zpos (digits2_pos p) = k.
Proof.
  intros [Hlo Hhi] Hk. pose proof (digits2_pos_bounds p) as [Dlo Dhi].
  destruct (Z.lt_trichotomy (Zpos (digits2_pos p)) k) as [L | [E | G]]; [exfalso | exact E | exfalso].
  - assert (2 ^ Zpos (digits2_pos p) <= 2 ^ (k - 1)) by (apply Z.pow_le_mono_r; lia). lia.
  - assert (2 ^ k <= 2 ^ (Zpos (digits2_pos p) - 1)) by (apply Z.pow_le_mono_r; lia). lia.
Qed.

(** The largest binade: [m * 2^971] with [m] of 53 bits is a double. *)
Lemma binary_round_top_binade sx p m :
  Zpos p = Zpos m * 2 ^ 971 -> 2 ^ 52 <= Zpos m < 2 ^ 53 ->
  binary_round prec emax sx p 0 = S754_finite sx m 971.
Proof.
  intros Hp [Hlo Hhi].
  assert (P971 : 0 < 2 ^ 971) by (apply Z.pow_pos_nonneg; lia).
  assert (Dp : Zpos (digits2_pos p) = 1024).
  { apply digits2_pos_unique; [| lia]. rewrite Hp.
    change (2 ^ (1024 - 1)) with (2 ^ 52 * 2 ^ 971). change (2 ^ 1024) with (2 ^ 53 * 2 ^ 971).
    split; [apply Z.mul_le_mono_nonneg_r | apply Z.mul_lt_mono_pos_r]; lia. }
  assert (Dm : Zpos (digits2_pos m) = 53) by (apply digits2_pos_unique; [split; assumption | lia]).
  unfold binary_round, shl_align. rewrite Dp.
  change (fexp prec emax (1024 + 0) - 0) with 971.
  unfold binary_round_aux, shr_fexp. cbn [Zdigits2 shr_record_of_loc]. rewrite Dp.
  change (fexp prec emax (1024 + 0) - 0) with 971. cbn [shr].
  rewrite Hp, (iter_shr_1_exact 971 (Zpos m)) by lia.
  cbn [shr_m loc_of_shr_record round_nearest_even Zdigits2 fst snd]. rewrite Dm.
  change (fexp prec emax (53 + (0 + 971)) - (0 + 971)) with 0. cbn [shr shr_record_of_loc shr_m].
  reflexivity.
Qed.

Lemma valid_exponent_le s m e : valid_binary (S754_finite s m e) = true -> e <= 971.
Proof.
  cbn [SpecFloat.valid_binary]. unfold bounded. intros H.
  apply andb_true_iff in H as [_ H]. apply Z.leb_le in H. exact H.
Qed.

Lemma round_half_even_whole p : round_half_even p 1 = p.
Proof.
  unfold round_half_even. pose proof (Z_div_mod p 1 ltac:(lia)) as H.
  destruct (Z.div_eucl p 1) as [d r]. destruct H as [H1 H2].
  assert (r = 0) by lia. subst r. replace d with p by lia. reflexivity.
Qed.

Lemma round_half_even_bound p q : 0 <= p -> 0 < q -> 0 <= round_half_even p q <= p + 1.
Proof.
  intros Hp Hq. unfold round_half_even. pose proof (Z_div_mod p q ltac:(lia)) as H.
  destruct (Z.div_eucl p q) as [d r]. destruct H as [H1 H2].
  assert (0 <= d) by nia. assert (d <= p) by nia.
  destruct (2 * r ?= q); [destruct (Z.even d) | |]; lia.
Qed.

Lemma round_int_converts x n : round_int x = Ok n -> exists f, int_to_float n = Returns f.
Proof.
  unfold round_int. pose proof (Prim2SF_valid x) as V.
  destruct (Prim2SF x) as [s | s | | s m e]; try discriminate; intros H; injection H as <-.
  - apply int_to_float_returns. vm_compute. reflexivity.
  - pose proof (valid_finite_bounds _ _ _ V) as (He & Hm & Hn).
    pose proof (valid_exponent_le _ _ _ V) as Hle.
    unfold sf_num, sf_den. destruct (Z.leb_spec 0 e) as [Hp | Hneg].
    + rewrite round_half_even_whole.
      assert (Pe : 0 < 2 ^ e) by (apply Z.pow_pos_nonneg; lia).
      destruct (Z.lt_ge_cases (Zpos m * 2 ^ e) (2 ^ 1023)) as [L | G].
      * apply int_to_float_returns.
        replace (Z.abs (cond_Zopp s (Zpos m * 2 ^ e))) with (Zpos m * 2 ^ e)
          by (destruct s; cbn [cond_Zopp]; lia).
        exact L.
      * assert (E971 : e = 971).
        { destruct (Z.eq_dec e 971) as [E | N]; [exact E | exfalso].
          assert (2 ^ e <= 2 ^ 970) by (apply Z.pow_le_mono_r; lia).
          assert (Zpos m * 2 ^ e < 2 ^ 53 * 2 ^ 970) by nia.
          change (2 ^ 53 * 2 ^ 970) with (2 ^ 1023) in H0. lia. }
        subst e.
        assert (M52 : 2 ^ 52 <= Zpos m).
        { apply Hn. lia. }
        destruct (Zpos m * 2 ^ 971) as [| p | p] eqn:Ep; try lia.
        unfold int_to_float, binary_normalize.
        destruct s; cbn [cond_Zopp Z.opp];
          rewrite (binary_round_top_binade _ p m (eq_sym Ep) (conj M52 Hm)); eexists; reflexivity.
    + assert (Pd : 0 < 2 ^ (- e)) by (apply Z.pow_pos_nonneg; lia).
      pose proof (round_half_even_bound (Zpos m) (2 ^ (- e)) ltac:(lia) Pd) as B.
      apply int_to_float_returns.
      replace (Z.abs (cond_Zopp s (round_half_even (Zpos m) (2 ^ (- e)))))
        with (round_half_even (Zpos m) (2 ^ (- e))) by (destruct s; cbn [cond_Zopp]; lia).
      assert (2 ^ 53 + 1 < 2 ^ 1023) by (vm_compute; reflexivity). lia.
Qed.

Local Close Scope Z_scope.

(** X17: for the reading a tick returns, the vitals panel raises nothing: the
    five calls of [show_metric] draw, in the order TEMP, HUMID, O2, CO2, FAN,
    a line that is red exactly for the channels the alarm evaluation flags,
    each followed by a bar from 0 to 100. *)
Theorem vitals_never_raise_after_a_tick
  (sin : float -> float) (dt : float) (w : tick_env) (s s' : session_state) (rec : reading)
  (thr : thresholds_t) :
  simulate_step sin dt w s = (Ok rec, s') ->
  snd (show_vitals rec thr) = None
  /\ exists n1 n2 n3 n4 n5,
      fst (show_vitals rec thr)
      = metric_drawing ChTemp rec thr n1 ++ metric_drawing ChHumid rec thr n2
          ++ metric_drawing ChO2 rec thr n3 ++ metric_drawing ChCO2 rec thr n4
          ++ metric_drawing ChFan rec thr n5
      /\ Forall (fun n => 0 <= n <= 100)%Z [n1; n2; n3; n4; n5].
Proof.
  intros H. apply simulate_step_Ok in H as (n & Hn & Hr & _).
  assert (HF : FAN rec = n) by (subst rec; reflexivity).
  destruct (round_int_converts _ _ Hn) as [f Hf].
  destruct (show_vitals_drawn rec thr) as (n1 & n2 & n3 & n4 & n5 & E & F).
  { rewrite HF, Hf. discriminate. }
  rewrite E. split; [reflexivity |]. exists n1, n2, n3, n4, n5. split; [reflexivity | exact F].
Qed.

Lemma vitals_never_raise_after_a_tick_witness :
  snd (show_vitals (the_reading (fst (simulate_step sin_poly 0.2 default_env init_state)))
         default_thresholds) = None.
Proof.
  refine (proj1 (vitals_never_raise_after_a_tick sin_poly 0.2 default_env init_state
                   (snd (simulate_step sin_poly 0.2 default_env init_state))
                   (the_reading (fst (simulate_step sin_poly 0.2 default_env init_state)))
                   default_thresholds _)).
  vm_compute. reflexivity.
Defined.
